(** * Telegram sentiment bot: a shallow embedding and its properties

    The development follows the two source modules:
    - [Py]        the Python built-ins the code relies on (float [max], [min],
                  [round], [str.strip], [re.sub]);
    - [Analyzer]  [sentiment_analyzer.py]: text preprocessing, the score
                  normaliser, label assignment, the outlier predicate;
    - [Bot]       [telegram_bot.py]: the session buffer, the JSON stores, the
                  count-based flush and the daily report.

    Python floats are IEEE-754 binary64 numbers and are modelled by Rocq's
    primitive floats; their specification ([Prim2SF], [SF64add], ...) is the
    one of the standard library. *)

From Stdlib Require Import ZArith NArith Lia Bool List Floats.
From stdpp Require Import gmap strings.
Import ListNotations.

Set Warnings "-inexact-float,-register-all".
Set Default Proof Using "Type".

(* ===================================================================== *)
(** * Python built-ins *)
(* ===================================================================== *)

Module Py.

(** ** Floats *)

(** [max(a, b)] keeps its first argument unless the second is strictly
    greater; [min(a, b)] keeps it unless the second is strictly smaller.
    With a NaN operand every comparison is false, so the first argument
    stays. *)
Definition max2 (a b : float) : float := if PrimFloat.ltb a b then b else a.
Definition min2 (a b : float) : float := if PrimFloat.ltb b a then b else a.
Definition max3 (a b c : float) : float := max2 (max2 a b) c.

(** Python's [max(list)] and [min(list)] on a non-empty list. *)
Definition max_list (x : float) (l : list float) : float := fold_left max2 l x.
Definition min_list (x : float) (l : list float) : float := fold_left min2 l x.

(** Round half to even of the rational [p / q], for [q > 0]. *)
Definition rne (p q : Z) : Z :=
  let (d, r) := Z.div_eucl p q in
  match Z.compare (2 * r) q with
  | Lt => d
  | Gt => d + 1
  | Eq => if Z.even d then d else d + 1
  end.

(** The binary64 number nearest to [k / d] with the sign [s], for [k >= 0]:
    what [strtod] returns on the decimal string [round] builds. *)
Definition sf_quot (s : bool) (k : Z) (d : positive) : spec_float :=
  match k with
  | Zpos p => SF64div (S754_finite s p 0) (S754_finite false d 0)
  | _ => S754_zero s
  end.

(** [round(x, ndigits)] for a float [x] and [ndigits >= 0]: the exact value
    of [x] is rounded half-even to [ndigits] decimals and the decimal result
    is converted back to the nearest float.  NaN, infinities, zeros and
    integral floats (exponent [>= 0]) round to themselves. *)
Definition round (x : float) (ndigits : nat) : float :=
  match Prim2SF x with
  | S754_finite s m (Zneg n) =>
      let d := Z.to_pos (10 ^ Z.of_nat ndigits) in
      SF2Prim (sf_quot s (rne (Zpos m * Zpos d) (Zpos (Pos.pow 2 n))) d)
  | _ => x
  end.

(** ** Strings

    A Python [str] is a sequence of Unicode code points. *)
Definition char := N.
Definition str := list char.

(** A literal of the source, all of them ASCII. *)
Definition lit (s : string) : str := map Ascii.N_of_ascii (String.list_ascii_of_string s).

(** [Py_UNICODE_ISSPACE]: the characters [str.strip()] strips and [\s]
    matches in a [str] pattern. *)
Definition isspace (c : char) : bool :=
  ((9 <=? c) && (c <=? 13) || (28 <=? c) && (c <=? 32)
   || (c =? 133) || (c =? 160) || (c =? 5760)
   || (8192 <=? c) && (c <=? 8202)
   || (c =? 8232) || (c =? 8233) || (c =? 8239) || (c =? 8287)
   || (c =? 12288))%N.

(** [\w] in a [str] pattern: alphanumeric or underscore.  For ASCII the set
    is written out; beyond ASCII it is the Unicode database's, a table
    [unicode_alnum] the functions take as an argument. *)
Definition isword (unicode_alnum : char -> bool) (c : char) : bool :=
  (if c <? 128 then
     (48 <=? c) && (c <=? 57) || (65 <=? c) && (c <=? 90)
     || (c =? 95) || (97 <=? c) && (c <=? 122)
   else unicode_alnum c)%N.

Fixpoint dropwhile {A} (p : A -> bool) (l : list A) : list A :=
  match l with
  | [] => []
  | x :: t => if p x then dropwhile p t else l
  end.

(** [s.strip()] *)
Definition lstrip (s : str) : str := dropwhile isspace s.
Definition rstrip (s : str) : str := rev (dropwhile isspace (rev s)).
Definition strip (s : str) : str := rstrip (lstrip s).

(** [s.startswith(p)] *)
Fixpoint startswith (s p : str) : bool :=
  match p, s with
  | [], _ => true
  | a :: p', b :: s' => (a =? b)%N && startswith s' p'
  | _ :: _, [] => false
  end.

(** ** [re.sub]

    A pattern is given by its matcher: on the text from the current
    position on, the length of the (greedy, leftmost) match that starts
    there, if there is one.  None of the three patterns of the source
    matches the empty string.  [re.sub] scans from the left: at a position
    where the pattern matches it emits the replacement and resumes after the
    match, elsewhere it copies one character.  [skip] counts the characters
    of the current match still to be dropped. *)
Definition matcher := str -> option nat.

Fixpoint sub_from (m : matcher) (repl : str) (skip : nat) (s : str) : str :=
  match s with
  | [] => []
  | c :: t =>
      match skip with
      | S k => sub_from m repl k t
      | O =>
          match m s with
          | Some n => repl ++ sub_from m repl (Nat.pred n) t
          | None => c :: sub_from m repl O t
          end
      end
  end.

Definition re_sub (m : matcher) (repl s : str) : str := sub_from m repl O s.

Fixpoint takewhile {A} (p : A -> bool) (l : list A) : list A :=
  match l with
  | [] => []
  | x :: t => if p x then x :: takewhile p t else []
  end.

(** [c+] for a character class [c]: one character of the class, then as
    many as follow. *)
Definition match_plus (cls : char -> bool) (s : str) : option nat :=
  match s with
  | c :: t => if cls c then Some (S (length (takewhile cls t))) else None
  | [] => None
  end.

(** A literal prefix followed by the rest of a pattern. *)
Definition match_seq (p : str) (rest : matcher) (s : str) : option nat :=
  if startswith s p
  then option_map (Nat.add (length p)) (rest (skipn (length p) s))
  else None.

(** [x?] followed by the rest of a pattern: with [x] first, without it when
    that fails. *)
Definition match_opt (x : char) (rest : matcher) (s : str) : option nat :=
  match s with
  | c :: t =>
      if (c =? x)%N then
        match rest t with
        | Some n => Some (S n)
        | None => rest s
        end
      else rest s
  | [] => rest s
  end.

End Py.

(* ===================================================================== *)
(** * sentiment_analyzer.py *)
(* ===================================================================== *)

Module Analyzer.
Import Py.

Inductive Label := NEGATIVE | NEUTRAL | POSITIVE.

(** The three patterns of [preprocess_text]. *)
Definition mention_re (alnum : char -> bool) : matcher :=        (* @\w+ *)
  match_seq (lit "@") (match_plus (isword alnum)).
Definition url_re : matcher :=                                   (* http[s]?://\S+ *)
  match_seq (lit "http")
    (match_opt 115%N (match_seq (lit "://") (match_plus (fun c => negb (isspace c))))).
Definition space_re : matcher :=                                 (* \s+ *)
  match_plus isspace.

Definition preprocess_text (alnum : char -> bool) (text : str) : str :=
  let text := re_sub (mention_re alnum) (lit "@user") text in
  let text := re_sub url_re (lit "http") text in
  let text := re_sub space_re (lit " ") text in
  let text := strip text in
  text.

(** [probabilities.get(key, 0.0)] *)
Definition get (probabilities : gmap str float) (key : str) : float :=
  default 0%float (probabilities !! key).

(** [_convert_to_scale]; [variation] is the value [np.random.uniform(-0.05,
    0.05)] returns in this call. *)
Definition _convert_to_scale (probabilities : gmap str float) (variation : float)
  : float :=
  let negative_prob := get probabilities (lit "LABEL_0") in
  let neutral_prob := get probabilities (lit "LABEL_1") in
  let positive_prob := get probabilities (lit "LABEL_2") in
  let polarity := (positive_prob - negative_prob)%float in
  let confidence := max3 negative_prob neutral_prob positive_prob in
  let base_score :=
    if (polarity <? -0.1)%float then
      if (0.9 <? confidence)%float then (1.0 + (polarity + 1) * 1.5)%float
      else if (0.7 <? confidence)%float then (1.5 + (polarity + 1) * 1.5)%float
      else (2.5 + (polarity + 1) * 1.0)%float
    else if (0.1 <? polarity)%float then
      if (0.9 <? confidence)%float then (8.5 + polarity * 1.5)%float
      else if (0.7 <? confidence)%float then (7.0 + polarity * 1.5)%float
      else (6.5 + polarity * 0.5)%float
    else
      let base_score := (5.0 + polarity * 0.8)%float in
      if (0.8 <? confidence)%float then 5.0%float
      else (base_score + (0.5 - confidence) * 0.6)%float in
  let sentiment_score := max2 1.0 (min2 10.0 base_score) in
  let sentiment_score := max2 1.0 (min2 10.0 (sentiment_score + variation)) in
  round sentiment_score 1.

(** The label cut points of [analyze_sentiment]. *)
Definition label_of (sentiment_score : float) : Label :=
  if (sentiment_score <=? 3.5)%float then NEGATIVE
  else if (6.5 <=? sentiment_score)%float then POSITIVE
  else NEUTRAL.

(** The tokenizer, the model and the softmax are outside the repository:
    [classifier text] is the probability triple they produce for the
    preprocessed text, or [None] when any of them raises. *)
Definition Classifier := str -> option (float * float * float).

(** [analyze_sentiment].  The analyzer's only effect is the invocation of
    the model; [calls] counts the invocations, the count is threaded
    through. *)
Definition analyze_sentiment (alnum : char -> bool) (classifier : Classifier)
    (variation : float) (text : str) (calls : nat) : (float * Label) * nat :=
  match text, strip text with
  | [], _ | _, [] => ((5.0%float, NEUTRAL), calls)
  | _, _ =>
      let processed_text := preprocess_text alnum text in
      match classifier processed_text with
      | Some (p0, p1, p2) =>
          let prob_dict : gmap str float :=
            <[lit "LABEL_2" := p2]> (<[lit "LABEL_1" := p1]> (<[lit "LABEL_0" := p0]> ∅)) in
          let sentiment_score := _convert_to_scale prob_dict variation in
          ((sentiment_score, label_of sentiment_score), S calls)
      | None => ((5.0%float, NEUTRAL), S calls)
      end
  end.

(** [is_outlier] *)
Definition is_outlier (sentiment_score low_threshold high_threshold : float) : bool :=
  (sentiment_score <=? low_threshold)%float || (high_threshold <=? sentiment_score)%float.

End Analyzer.

(* ===================================================================== *)
(** * telegram_bot.py *)
(* ===================================================================== *)

Module Bot.
Import Py Analyzer.

(** ** Python values

    What the session buffer and the JSON files hold: [None], booleans,
    integers, floats, strings, lists and dictionaries.  A dictionary keeps
    its keys in insertion order. *)
Inductive value :=
  | VNone
  | VBool (b : bool)
  | VInt (z : Z)
  | VFloat (f : float)
  | VStr (s : str)
  | VList (l : list value)
  | VDict (d : list (str * value)).

Inductive exn :=
  | KeyError | TypeError | AttributeError | JSONDecodeError.

(** A computation that returns or raises. *)
Definition result (A : Type) : Type := exn + A.

Definition rbind {A B} (c : result A) (k : A -> result B) : result B :=
  match c with inl e => inl e | inr a => k a end.

Fixpoint assoc (key : str) (d : list (str * value)) : option value :=
  match d with
  | [] => None
  | (k, v) :: d' => if decide (k = key) then Some v else assoc key d'
  end.

(** [msg[key]] *)
Definition getitem (msg : value) (key : str) : result value :=
  match msg with
  | VDict d => match assoc key d with Some v => inr v | None => inl KeyError end
  | _ => inl TypeError
  end.

(** Truth value of an object, as [if] and a comprehension's filter take it. *)
Definition truthy (v : value) : bool :=
  match v with
  | VNone => false
  | VBool b => b
  | VInt z => negb (z =? 0)%Z
  | VFloat f => negb (f =? 0)%float
  | VStr s => match s with [] => false | _ => true end
  | VList l => match l with [] => false | _ => true end
  | VDict d => match d with [] => false | _ => true end
  end.

(** [[x for x in l if p(x)]] and [[f(x) for x in l]], where [p] and [f] may
    raise: the first exception ends the comprehension. *)
Fixpoint filterR {A} (p : A -> result bool) (l : list A) : result (list A) :=
  match l with
  | [] => inr []
  | x :: t =>
      rbind (p x) (fun b =>
      rbind (filterR p t) (fun t' => inr (if b then x :: t' else t')))
  end.

Fixpoint mapR {A B} (f : A -> result B) (l : list A) : result (list B) :=
  match l with
  | [] => inr []
  | x :: t => rbind (f x) (fun y => rbind (mapR f t) (fun t' => inr (y :: t')))
  end.

(** ** Configuration ([config.py]) and what lies outside the repository *)

Record Config := {
  MONITOR_CHAT_ID : Z;
  LOG_DIRECTORY : str;
  SENTIMENT_THRESHOLD_LOW : float;
  SENTIMENT_THRESHOLD_HIGH : float
}.

(** The defaults of [config.py] for a given chat. *)
Definition default_config (chat : Z) : Config :=
  {| MONITOR_CHAT_ID := chat; LOG_DIRECTORY := lit "logs";
     SENTIMENT_THRESHOLD_LOW := 3.0; SENTIMENT_THRESHOLD_HIGH := 7.5 |}.

(** The Unicode table behind [\w], the classifier, and the [json] library:
    [json_dumps v] is [json.dumps(v, ensure_ascii=False, indent=2)],
    [json_loads s] is [json.loads(s)], [None] when it raises
    [JSONDecodeError]. *)
Record Externals := {
  unicode_alnum : char -> bool;
  classifier : Classifier;
  json_dumps : value -> str;
  json_loads : str -> option value
}.

(** [datetime.now()], through the three renderings the code takes of it. *)
Record Clock := {
  strftime_Ymd : str;      (* strftime("%Y-%m-%d") *)
  strftime_Ym : str;       (* strftime('%Y-%m') *)
  isoformat : str
}.

(** ** The bot's state

    [session_messages] and [session_outliers] are the fields of
    [SentimentBot]; [files] is the file system, a map from paths to
    contents; [writes] records every file written, oldest first, and
    [model_calls] counts the invocations of the classifier: the two are
    observations, no code reads them. *)
Record State := {
  session_messages : list value;
  session_outliers : nat;
  files : gmap str str;
  writes : list (str * str);
  model_calls : nat
}.

Definition initial (fs : gmap str str) : State :=
  {| session_messages := []; session_outliers := 0; files := fs;
     writes := []; model_calls := 0 |}.

(** State and exceptions: what was done before a [raise] stays done. *)
Definition M (A : Type) : Type := State -> result A * State.

Definition ret {A} (a : A) : M A := fun st => (inr a, st).
Definition raise {A} (e : exn) : M A := fun st => (inl e, st).
Definition bind {A B} (c : M A) (k : A -> M B) : M B :=
  fun st => match c st with
            | (inr a, st') => k a st'
            | (inl e, st') => (inl e, st')
            end.
Definition try_except {A} (c : M A) (handler : exn -> M A) : M A :=
  fun st => match c st with
            | (inr a, st') => (inr a, st')
            | (inl e, st') => handler e st'
            end.
Definition lift {A} (r : result A) : M A := fun st => (r, st).
Definition gets {A} (f : State -> A) : M A := fun st => (inr (f st), st).
Definition modify (f : State -> State) : M unit := fun st => (inr tt, f st).

Declare Scope bot_scope.
Delimit Scope bot_scope with bot.
Notation "x <- c ;; k" := (bind c (fun x => k))
  (at level 100, c at next level, right associativity) : bot_scope.
Notation "c ;;; k" := (bind c (fun _ => k))
  (at level 100, right associativity) : bot_scope.
Local Open Scope bot_scope.

(** [open(path, 'w')] followed by one write of [content]. *)
Definition write_file (path content : str) : M unit :=
  modify (fun st =>
    {| session_messages := session_messages st;
       session_outliers := session_outliers st;
       files := <[path := content]> (files st);
       writes := writes st ++ [(path, content)];
       model_calls := model_calls st |}).

Definition set_session_messages (l : list value) : M unit :=
  modify (fun st =>
    {| session_messages := l;
       session_outliers := session_outliers st;
       files := files st;
       writes := writes st;
       model_calls := model_calls st |}).

Definition incr_session_outliers : M unit :=
  modify (fun st =>
    {| session_messages := session_messages st;
       session_outliers := S (session_outliers st);
       files := files st;
       writes := writes st;
       model_calls := model_calls st |}).

(** [os.path.join(LOG_DIRECTORY, filename)] for a relative [filename]. *)
Definition path_join (dir filename : str) : str :=
  match dir with
  | [] => filename
  | _ => if decide (last dir = Some 47%N) then dir ++ filename
         else dir ++ lit "/" ++ filename
  end.

(** [_save_to_json] *)
Definition _save_to_json (cfg : Config) (ext : Externals)
    (data : value) (filename : str) : M unit :=
  let filepath := path_join (LOG_DIRECTORY cfg) filename in
  try_except
    (fs <- gets files ;;
     let existing_data :=
       match fs !! filepath with
       | Some content =>
           match json_loads ext content with
           | Some v => v
           | None => VList []                  (* except json.JSONDecodeError *)
           end
       | None => VList []
       end in
     match existing_data with
     | VList l => write_file filepath (json_dumps ext (VList (l ++ [data])))
     | _ => raise AttributeError               (* existing_data.append *)
     end)
    (fun _ => ret tt).

(** The path of the per-day store for the date [today]. *)
Definition data_file (cfg : Config) (today : str) : str :=
  LOG_DIRECTORY cfg ++ lit "/sentiment_data_" ++ today ++ lit ".json".

(** Lines 178-183 of [save_current_data]: what the code reads from the
    per-day file, [[]] for a missing or blank file. *)
Definition read_existing (ext : Externals) (fs : gmap str str) (path : str)
  : result value :=
  match fs !! path with
  | Some content =>
      match strip content with
      | [] => inr (VList [])
      | _ => match json_loads ext content with
             | Some v => inr v
             | None => inl JSONDecodeError
             end
      end
  | None => inr (VList [])
  end.

(** [existing_data + self.session_messages] *)
Definition add_list (existing_data : value) (l : list value) : result value :=
  match existing_data with
  | VList l0 => inr (VList (l0 ++ l))
  | _ => inl TypeError
  end.

(** [save_current_data] *)
Definition save_current_data (cfg : Config) (ext : Externals) (now : Clock) : M unit :=
  try_except
    (buf <- gets session_messages ;;
     match buf with
     | [] => ret tt
     | _ =>
         let today := strftime_Ymd now in
         let data_file := data_file cfg today in
         fs <- gets files ;;
         existing_data <- lift (read_existing ext fs data_file) ;;
         all_data <- lift (add_list existing_data buf) ;;
         write_file data_file (json_dumps ext all_data) ;;;
         set_session_messages []
     end)
    (fun _ => ret tt).

(** [float(n)] for an integer. *)
Definition float_of_Z (z : Z) : float := SF2Prim (binary_normalize prec emax z 0 false).

(** A score read back from a record: the buffer only ever holds the floats
    [handle_message] stored; arithmetic on anything else is a [TypeError]
    here. *)
Definition as_float (v : value) : result float :=
  match v with VFloat f => inr f | _ => inl TypeError end.

(** [v.startswith(prefix)] *)
Definition value_startswith (v : value) (prefix : str) : result bool :=
  match v with VStr s => inr (startswith s prefix) | _ => inl AttributeError end.

Definition len {A} (l : list A) : Z := Z.of_nat (length l).

(** The body of [generate_daily_report] up to the report it builds. *)
Definition daily_report (now : Clock) (buf : list value) : result (option value) :=
  let today := strftime_Ymd now in
  rbind (filterR (fun msg => rbind (getitem msg (lit "timestamp"))
                               (fun ts => value_startswith ts today)) buf)
    (fun today_messages =>
  match today_messages with
  | [] => inr None
  | _ =>
  rbind (mapR (fun msg => rbind (getitem msg (lit "sentiment_score")) as_float)
          today_messages) (fun scores =>
  let avg_sentiment := (fold_left PrimFloat.add scores 0 / float_of_Z (len scores))%float in
  rbind (filterR (fun msg => rbind (getitem msg (lit "is_outlier"))
                               (fun v => inr (truthy v))) today_messages)
    (fun outliers =>
  inr (Some (VDict [
    (lit "date", VStr today);
    (lit "total_messages", VInt (len today_messages));
    (lit "average_sentiment", VFloat (round avg_sentiment 2));
    (lit "outliers_count", VInt (len outliers));
    (lit "sentiment_distribution", VDict [
       (lit "positive", VInt (len (filter (fun s => (6.5 <=? s)%float) scores)));
       (lit "neutral",
        VInt (len (filter (fun s => (3.5 <? s)%float && (s <? 6.5)%float) scores)));
       (lit "negative", VInt (len (filter (fun s => (s <=? 3.5)%float) scores)))]);
    (lit "top_positive",
     match scores with x :: t => VFloat (max_list x t) | [] => VInt 0 end);
    (lit "top_negative",
     match scores with x :: t => VFloat (min_list x t) | [] => VInt 0 end);
    (lit "generated_at", VStr (isoformat now))]))))
  end).

(** [generate_daily_report] *)
Definition generate_daily_report (cfg : Config) (ext : Externals) (now : Clock)
  : M unit :=
  let today := strftime_Ymd now in
  let report_filename := lit "daily_report_" ++ today ++ lit ".json" in
  try_except
    (buf <- gets session_messages ;;
     report <- lift (daily_report now buf) ;;
     match report with
     | None => ret tt                       (* no messages today *)
     | Some report => _save_to_json cfg ext report report_filename
     end)
    (fun _ => ret tt).

(** ** Incoming messages *)

Record User := { user_id : Z; username : option str }.   (* from_user.id, .username *)

Record Message := {
  message_id : Z;
  chat_id : Z;
  from_user : option User;
  text : option str;
  date : str                               (* message.date.isoformat() *)
}.

Definition label_str (l : Label) : str :=
  match l with
  | NEGATIVE => lit "NEGATIVE"
  | NEUTRAL => lit "NEUTRAL"
  | POSITIVE => lit "POSITIVE"
  end.

(** The dictionary [handle_message] builds for a message. *)
Definition message_data (message : Message) (text : str)
    (sentiment_score : float) (sentiment_label : Label) : value :=
  VDict [
    (lit "message_id", VInt (message_id message));
    (lit "chat_id", VInt (chat_id message));
    (lit "user_id",
     match from_user message with Some u => VInt (user_id u) | None => VNone end);
    (lit "username",
     match from_user message with
     | Some u => match username u with Some n => VStr n | None => VNone end
     | None => VNone
     end);
    (lit "text", VStr text);
    (lit "timestamp", VStr (date message));
    (lit "sentiment_score", VFloat sentiment_score);
    (lit "sentiment_label", VStr (label_str sentiment_label))].

(** The call of [self.analyzer.analyze_sentiment]. *)
Definition analyze (ext : Externals) (variation : float) (text : str)
  : M (float * Label) :=
  fun st =>
    let '(r, calls) :=
      analyze_sentiment (unicode_alnum ext) (classifier ext) variation text
        (model_calls st) in
    (inr r,
     {| session_messages := session_messages st;
        session_outliers := session_outliers st;
        files := files st;
        writes := writes st;
        model_calls := calls |}).

(** [handle_message]; [variation] is the jitter the analyzer draws for this
    message and [now] the clock at the time of the call. *)
Definition handle_message (cfg : Config) (ext : Externals) (now : Clock)
    (variation : float) (update_message : option Message) : M unit :=
  try_except
    (match update_message with
     | None => ret tt
     | Some message =>
     match text message with
     | None | Some [] => ret tt
     | Some message_text =>
     if negb (MONITOR_CHAT_ID cfg =? 0)%Z
        && negb (chat_id message =? MONITOR_CHAT_ID cfg)%Z
     then ret tt
     else
       r <- analyze ext variation message_text ;;
       let '(sentiment_score, sentiment_label) := r in
       let message_data :=
         message_data message message_text sentiment_score sentiment_label in
       buf <- gets session_messages ;;
       set_session_messages (buf ++ [message_data]) ;;;
       (if is_outlier sentiment_score
             (SENTIMENT_THRESHOLD_LOW cfg) (SENTIMENT_THRESHOLD_HIGH cfg)
        then
          incr_session_outliers ;;;
          let outlier_filename := lit "outliers_" ++ strftime_Ym now ++ lit ".json" in
          _save_to_json cfg ext message_data outlier_filename
        else ret tt) ;;;
       buf <- gets session_messages ;;
       if (len buf mod 10 =? 0)%Z then save_current_data cfg ext now else ret tt
     end
     end)
    (fun _ => ret tt).

End Bot.

(* ===================================================================== *)
(** * A reference JSON codec

    An executable printer and parser for the JSON the bot writes, used to
    instantiate [json_dumps] and [json_loads] in examples.  Floats are
    printed with their exact decimal expansion and read back with correct
    rounding. *)
(* ===================================================================== *)

Module RefCodec.
Import Py Analyzer Bot.

Fixpoint digits_from (fuel : nat) (n : N) (acc : str) : str :=
  match fuel with
  | O => acc
  | S fuel' =>
      let acc' := (48 + n mod 10)%N :: acc in
      if (n / 10 =? 0)%N then acc' else digits_from fuel' (n / 10)%N acc'
  end.

Definition digits (n : N) : str := digits_from (S (N.size_nat n)) n [].

Definition print_int (z : Z) : str :=
  match z with
  | Zneg p => 45%N :: digits (Npos p)
  | _ => digits (Z.to_N z)
  end.

(** [n / 10^k] written out: the digits of [n] with the point [k] places from
    the right. *)
Definition print_decimal (n : N) (k : nat) : str :=
  let ds := digits n in
  let ds := repeat 48%N (S k - length ds) ++ ds in
  let i := (length ds - k)%nat in
  firstn i ds ++ 46%N :: (match skipn i ds with [] => [48%N] | fr => fr end).

Definition print_float (f : float) : str :=
  match Prim2SF f with
  | S754_zero s => (if s then lit "-" else []) ++ lit "0.0"
  | S754_infinity s => (if s then lit "-" else []) ++ lit "Infinity"
  | S754_nan => lit "NaN"
  | S754_finite s m e =>
      (if s then lit "-" else []) ++
      match e with
      | Zneg n => print_decimal (Npos (m * Pos.pow 5 n)) (Pos.to_nat n)
      | _ => print_decimal (Z.to_N (Zpos m * 2 ^ e)) 0
      end
  end.

Definition hex_digit (n : N) : char := (if n <? 10 then 48 + n else 87 + n)%N.

Definition print_char (c : char) : str :=
  if (c =? 34)%N then lit "\" ++ [34%N]
  else if (c =? 92)%N then lit "\\"
  else if (c <? 32)%N then lit "\u00" ++ [hex_digit (c / 16); hex_digit (c mod 16)]
  else [c].

Definition print_str (s : str) : str := 34%N :: flat_map print_char s ++ [34%N].

Definition sep_by {A} (f : A -> str) (l : list A) : str :=
  match l with
  | [] => []
  | x :: t => f x ++ flat_map (fun y => lit ", " ++ f y) t
  end.

Fixpoint dumps (v : value) : str :=
  match v with
  | VNone => lit "null"
  | VBool b => if b then lit "true" else lit "false"
  | VInt z => print_int z
  | VFloat f => print_float f
  | VStr s => print_str s
  | VList l => lit "[" ++ sep_by dumps l ++ lit "]"
  | VDict d =>
      lit "{" ++ sep_by (fun kv => print_str (fst kv) ++ lit ": " ++ dumps (snd kv)) d
      ++ lit "}"
  end.

Definition is_digit (c : char) : bool := ((48 <=? c) && (c <=? 57))%N.

Definition json_ws (c : char) : bool :=
  ((c =? 32) || (c =? 9) || (c =? 10) || (c =? 13))%N.

Definition number_of (ds : str) : N :=
  fold_left (fun acc c => (10 * acc + (c - 48))%N) ds 0%N.

Definition hex_value (c : char) : option N :=
  if is_digit c then Some (c - 48)%N
  else if ((97 <=? c) && (c <=? 102))%N then Some (c - 87)%N
  else if ((65 <=? c) && (c <=? 70))%N then Some (c - 55)%N
  else None.

(** The character an escape stands for: quote, backslash, slash, and the
    letters n, t, r, b, f. *)
Definition unescape (e : char) : option char :=
  if (e =? 34)%N then Some 34%N
  else if (e =? 92)%N then Some 92%N
  else if (e =? 47)%N then Some 47%N
  else if (e =? 110)%N then Some 10%N
  else if (e =? 116)%N then Some 9%N
  else if (e =? 114)%N then Some 13%N
  else if (e =? 98)%N then Some 8%N
  else if (e =? 102)%N then Some 12%N
  else None.

Definition cons_char (c : char) (r : option (str * str)) : option (str * str) :=
  option_map (fun r => (c :: fst r, snd r)) r.

(** The characters of a string up to its closing quote, and what follows. *)
Fixpoint parse_chars (fuel : nat) (s : str) : option (str * str) :=
  match fuel with
  | O => None
  | S fuel' =>
      match s with
      | [] => None
      | c :: t =>
          if (c =? 34)%N then Some ([], t)
          else if (c <? 32)%N then None
          else if (c =? 92)%N then
            match t with
            | e :: t1 =>
                if (e =? 117)%N then
                  match t1 with
                  | h1 :: h2 :: h3 :: h4 :: t2 =>
                      match hex_value h1, hex_value h2, hex_value h3, hex_value h4 with
                      | Some a, Some b, Some c3, Some d =>
                          cons_char (((a * 16 + b) * 16 + c3) * 16 + d)%N
                            (parse_chars fuel' t2)
                      | _, _, _, _ => None
                      end
                  | _ => None
                  end
                else
                  match unescape e with
                  | Some x => cons_char x (parse_chars fuel' t1)
                  | None => None
                  end
            | [] => None
            end
          else cons_char c (parse_chars fuel' t)
      end
  end.

Definition parse_string (s : str) : option (str * str) :=
  match s with
  | c :: t => if (c =? 34)%N then parse_chars (S (length t)) t else None
  | [] => None
  end.

(** A number: an optional sign, digits, and an optional fraction. *)
Definition parse_number (s : str) : option (value * str) :=
  let '(neg, s) := match s with
                   | c :: t => if (c =? 45)%N then (true, t) else (false, s)
                   | [] => (false, s)
                   end in
  let ip := takewhile is_digit s in
  let s := dropwhile is_digit s in
  match ip with
  | [] =>
      if startswith s (lit "Infinity")
      then Some (VFloat (if neg then neg_infinity else infinity), skipn 8 s)
      else None
  | _ =>
      match s with
      | c :: t =>
          if (c =? 46)%N then
            let fp := takewhile is_digit t in
            match fp with
            | [] => None
            | _ =>
                let k := Z.of_N (number_of (ip ++ fp)) in
                Some (VFloat (SF2Prim (sf_quot neg k (Pos.pow 10 (Pos.of_nat (length fp))))),
                      dropwhile is_digit t)
            end
          else Some (VInt (let z := Z.of_N (number_of ip) in if neg then - z else z), s)
      | [] => Some (VInt (let z := Z.of_N (number_of ip) in if neg then - z else z), s)
      end
  end.

Definition expect (c : char) (s : str) : option str :=
  match dropwhile json_ws s with
  | c1 :: t => if (c1 =? c)%N then Some t else None
  | [] => None
  end.

Fixpoint parse_value (fuel : nat) (s : str) : option (value * str) :=
  match fuel with
  | O => None
  | S fuel' =>
      let s := dropwhile json_ws s in
      match s with
      | [] => None
      | c :: t =>
          if startswith s (lit "null") then Some (VNone, skipn 4 s)
          else if startswith s (lit "true") then Some (VBool true, skipn 4 s)
          else if startswith s (lit "false") then Some (VBool false, skipn 5 s)
          else if startswith s (lit "NaN") then Some (VFloat nan, skipn 3 s)
          else if (c =? 34)%N then
            option_map (fun r => (VStr (fst r), snd r)) (parse_string s)
          else if (c =? 91)%N then
            match expect 93%N t with
            | Some rest => Some (VList [], rest)
            | None =>
                option_map (fun r => (VList (fst r), snd r)) (parse_elements fuel' t)
            end
          else if (c =? 123)%N then
            match expect 125%N t with
            | Some rest => Some (VDict [], rest)
            | None =>
                option_map (fun r => (VDict (fst r), snd r)) (parse_members fuel' t)
            end
          else parse_number s
      end
  end
with parse_elements (fuel : nat) (s : str) : option (list value * str) :=
  match fuel with
  | O => None
  | S fuel' =>
      match parse_value fuel' s with
      | Some (v, rest) =>
          match expect 44%N rest with
          | Some rest1 =>
              option_map (fun r => (v :: fst r, snd r)) (parse_elements fuel' rest1)
          | None => option_map (fun rest1 => ([v], rest1)) (expect 93%N rest)
          end
      | None => None
      end
  end
with parse_members (fuel : nat) (s : str) : option (list (str * value) * str) :=
  match fuel with
  | O => None
  | S fuel' =>
      match parse_string (dropwhile json_ws s) with
      | Some (k, rest) =>
          match expect 58%N rest with
          | Some rest1 =>
              match parse_value fuel' rest1 with
              | Some (v, rest2) =>
                  match expect 44%N rest2 with
                  | Some rest3 =>
                      option_map (fun r => ((k, v) :: fst r, snd r))
                        (parse_members fuel' rest3)
                  | None => option_map (fun rest3 => ([(k, v)], rest3)) (expect 125%N rest2)
                  end
              | None => None
              end
          | None => None
          end
      | None => None
      end
  end.

(** [loads]: one value, and nothing but white space after it. *)
Definition loads (s : str) : option value :=
  match parse_value (S (length s)) s with
  | Some (v, rest) => match dropwhile json_ws rest with [] => Some v | _ => None end
  | None => None
  end.

(** The externals of the examples: no alphanumerics beyond ASCII, and a
    classifier that is confident of a positive text and fails on the text
    boom. *)
Definition ext : Externals :=
  {| unicode_alnum := fun _ => false;
     classifier := fun t => if decide (t = lit "boom") then None
                            else Some (0.02, 0.03, 0.95)%float;
     json_dumps := dumps;
     json_loads := loads |}.

End RefCodec.


(* ===================================================================== *)
(** * Facts on binary64 numbers between 1 and 10 *)
(* ===================================================================== *)

Module FloatFacts.
Import Py.
Local Open Scope Z_scope.

Definition clamp (b : float) : float := max2 1.0 (min2 10.0 b).
Definition in_range (c : float) : bool := ((1 <=? c) && (c <=? 10))%float.

Lemma clamp_cases b :
  clamp b = 1%float \/ clamp b = 10%float \/
  (clamp b = b /\ (1 <? b)%float = true /\ (b <? 10)%float = true).
Proof.
  unfold clamp, max2, min2.
  destruct (b <? 10)%float eqn:H10.
  - destruct (1 <? b)%float eqn:H1; auto.
  - right; left. reflexivity.
Qed.

Lemma ltb_leb x y : (x <? y)%float = true -> (x <=? y)%float = true.
Proof.
  rewrite ltb_spec, leb_spec. unfold SFltb, SFleb.
  destruct (SFcompare _ _) as [[]|]; auto.
Qed.

Lemma digits2_size m : digits2_pos m = Pos.size m.
Proof. induction m; simpl; congruence. Qed.

Lemma SF_one : Prim2SF 1 = S754_finite false 4503599627370496 (-52).
Proof. vm_compute. reflexivity. Qed.
Lemma SF_ten : Prim2SF 10 = S754_finite false 5629499534213120 (-49).
Proof. vm_compute. reflexivity. Qed.


Lemma SFleb_finite m1 e1 m2 e2 :
  SFleb (S754_finite false m1 e1) (S754_finite false m2 e2) = true ->
  e1 < e2 \/ (e1 = e2 /\ Zpos m1 <= Zpos m2).
Proof.
  cbv beta iota delta [SFleb SFcompare].
  change (Pos.compare_cont Eq m1 m2) with (Pos.compare m1 m2).
  destruct (Z.compare_spec e1 e2) as [E|E|E]; try discriminate; auto.
  destruct (Pos.compare_spec m1 m2); try discriminate; intros _; right; lia.
Qed.

Lemma valid_normal m e s :
  valid_binary (S754_finite s m e) = true -> -1074 < e ->
  2 ^ 52 <= Zpos m < 2 ^ 53.
Proof.
  cbv beta iota delta [valid_binary bounded canonical_mantissa fexp emin].
  rewrite digits2_size. change FloatOps.prec with 53. change FloatOps.emax with 1024.
  intros V He. apply andb_true_iff in V as [V _]. apply Z.eqb_eq in V.
  assert (Zpos (Pos.size m) = 53) as S by lia.
  assert (Pos.size m = 53%positive) as S' by lia.
  pose proof (Pos.size_gt m) as G. pose proof (Pos.size_le m) as L.
  rewrite S' in G, L.
  split.
  - apply Pos2Z.pos_le_pos in L. rewrite Pos2Z.inj_pow, Pos2Z.inj_xO in L. lia.
  - apply Pos2Z.pos_lt_pos in G. rewrite Pos2Z.inj_pow in G. exact G.
Qed.

Lemma range_SF c :
  in_range c = true ->
  exists m e, Prim2SF c = S754_finite false m e /\
    (2 ^ (-e) <= Zpos m <= 10 * 2 ^ (-e)) /\ -52 <= e <= -49.
Proof.
  unfold in_range. rewrite andb_true_iff, !leb_spec, SF_one, SF_ten.
  pose proof (Prim2SF_valid c) as V.
  destruct (Prim2SF c) as [s|s| |s m e].
  1-3: cbv beta iota delta [SFleb SFcompare]; try destruct s; intros [? ?]; discriminate.
  destruct s.
  { cbv beta iota delta [SFleb SFcompare]; intros [? ?]; discriminate. }
  intros [H1 H2]. exists m, e. split; [reflexivity|].
  apply SFleb_finite in H1, H2.
  assert (-52 <= e <= -49) as He by lia.
  apply valid_normal in V; [|lia].
  split; [|exact He].
  assert (e = -52 \/ e = -51 \/ e = -50 \/ e = -49) as [->|[->|[->| ->]]] by lia.
  all: change (- -52) with 52; change (- -51) with 51; change (- -50) with 50; change (- -49) with 49.
  all: lia.
Qed.

Lemma rne_bounds p q a b :
  0 < q -> a * q <= p <= b * q -> a <= rne p q <= b.
Proof.
  intros Hq [Ha Hb]. unfold rne.
  pose proof (Z_div_mod p q ltac:(lia)) as D.
  destruct (Z.div_eucl p q) as [d r]. destruct D as [-> Hr].
  assert (a <= d) by nia.
  assert (d < b \/ (d = b /\ r = 0)) as Hd by nia.
  destruct (Z.compare_spec (2 * r) q); [destruct (Z.even d)| |]; lia.
Qed.

Definition tenth (k : Z) : float := SF2Prim (sf_quot false k 10).

Lemma tenths_in_range :
  forallb (fun k => in_range (tenth (Z.of_nat k))) (seq 10 91) = true.
Proof. vm_compute. reflexivity. Qed.

Lemma tenth_in_range k : 10 <= k <= 100 -> in_range (tenth k) = true.
Proof.
  intros Hk. pose proof tenths_in_range as T.
  rewrite forallb_forall in T.
  specialize (T (Z.to_nat k)). rewrite Z2Nat.id in T by lia.
  apply T. apply in_seq. lia.
Qed.

Lemma round1_tenth c :
  in_range c = true -> exists k, 10 <= k <= 100 /\ round c 1 = tenth k.
Proof.
  intros H. destruct (range_SF c H) as (m & e & E & Hm & He).
  unfold round. rewrite E.
  destruct e as [|e|n]; try lia.
  eexists; split; [|reflexivity].
  change (Z.to_pos (10 ^ Z.of_nat 1)) with 10%positive.
  apply rne_bounds; [lia|].
  rewrite Pos2Z.inj_pow. change (- Z.neg n) with (Z.pos n) in Hm. lia.
Qed.

Lemma round1_in_range c : in_range c = true -> in_range (round c 1) = true.
Proof.
  intros H. destruct (round1_tenth c H) as (k & Hk & ->). now apply tenth_in_range.
Qed.

Lemma clamp_in_range b : in_range (clamp b) = true.
Proof.
  destruct (clamp_cases b) as [->|[->|(-> & H1 & H2)]]; try reflexivity.
  unfold in_range. now rewrite (ltb_leb _ _ H1), (ltb_leb _ _ H2).
Qed.

Lemma clamp_idem b : clamp (clamp b) = clamp b.
Proof.
  destruct (clamp_cases b) as [E|[E|(E & H1 & H2)]]; rewrite E; try reflexivity.
  exact E.
Qed.

Lemma add_zero_in_range c : in_range c = true -> (c + 0)%float = c.
Proof.
  intros H. destruct (range_SF c H) as (m & e & E & _).
  apply Prim2SF_inj. rewrite add_spec, E. reflexivity.
Qed.

Lemma SF_3_5 : Prim2SF 3.5 = S754_finite false 7881299347898368 (-51).
Proof. vm_compute. reflexivity. Qed.
Lemma SF_6_5 : Prim2SF 6.5 = S754_finite false 7318349394477056 (-50).
Proof. vm_compute. reflexivity. Qed.

(** No float is both at most 3.5 and at least 6.5. *)
Lemma cut_points_disjoint s :
  (s <=? 3.5)%float = true -> (6.5 <=? s)%float = true -> False.
Proof.
  rewrite !leb_spec, SF_3_5, SF_6_5.
  destruct (Prim2SF s) as [b|b| |b m e].
  1-3: cbv beta iota delta [SFleb SFcompare]; try destruct b; intros; discriminate.
  destruct b.
  { cbv beta iota delta [SFleb SFcompare]; intros; discriminate. }
  intros H1 H2. apply SFleb_finite in H1, H2. lia.
Qed.

End FloatFacts.

(* ===================================================================== *)
(** * The score normaliser, the labels and the outlier predicate *)
(* ===================================================================== *)

(** The score as the specification words it: polarity, confidence, the
    piecewise base score, one clamp, one rounding. *)
Module ScoreSpec.
Import Py.

Definition polarity (p_n p_p : float) : float := (p_p - p_n)%float.

Definition confidence (p_n p_z p_p : float) : float := max3 p_n p_z p_p.

Definition base (polarity confidence : float) : float :=
  if (polarity <? -0.1)%float then
    if (0.9 <? confidence)%float then (1.0 + (polarity + 1) * 1.5)%float
    else if (0.7 <? confidence)%float then (1.5 + (polarity + 1) * 1.5)%float
    else (2.5 + (polarity + 1) * 1.0)%float
  else if (0.1 <? polarity)%float then
    if (0.9 <? confidence)%float then (8.5 + polarity * 1.5)%float
    else if (0.7 <? confidence)%float then (7.0 + polarity * 1.5)%float
    else (6.5 + polarity * 0.5)%float
  else
    if (0.8 <? confidence)%float then 5.0%float
    else ((5.0 + polarity * 0.8) + (0.5 - confidence) * 0.6)%float.

Definition score (p_n p_z p_p : float) : float :=
  round (FloatFacts.clamp (base (polarity p_n p_p) (confidence p_n p_z p_p))) 1.

End ScoreSpec.

Module AnalyzerSpec.
Import Py Analyzer FloatFacts.

(** C1.  With the jitter fixed to 0, [_convert_to_scale] returns the base
    score of the specification (by polarity [p_p - p_n] and confidence
    [max(p_n, p_z, p_p)], in the three bands), clamped to [1.0, 10.0] and
    rounded to one decimal: the second clamp and the addition of 0 change
    nothing. *)
Theorem convert_to_scale_matches_spec (probabilities : gmap str float) :
  _convert_to_scale probabilities 0 =
  ScoreSpec.score (get probabilities (lit "LABEL_0"))
                  (get probabilities (lit "LABEL_1"))
                  (get probabilities (lit "LABEL_2")).
Proof.
  unfold _convert_to_scale, ScoreSpec.score, ScoreSpec.base, ScoreSpec.polarity,
    ScoreSpec.confidence.
  set (pol := (_ - _)%float). set (conf := max3 _ _ _).
  match goal with |- round (max2 1 (min2 10 (max2 1 (min2 10 ?b) + 0))) 1 = _ =>
    change (round (clamp (clamp b + 0)) 1 = round (clamp b) 1) end.
  rewrite add_zero_in_range by apply clamp_in_range.
  now rewrite clamp_idem.
Qed.

(** C3.  Whatever the probabilities (they need not sum to 1, nor be
    numbers) and whatever the jitter, in particular any jitter in
    [-0.05, 0.05], the normalised score lies in [1.0, 10.0]. *)
Theorem score_in_bounds (probabilities : gmap str float) (variation : float) :
  let s := _convert_to_scale probabilities variation in
  (1 <=? s)%float = true /\ (s <=? 10)%float = true.
Proof.
  intros s. apply andb_true_iff. subst s. unfold _convert_to_scale.
  match goal with |- context [round (max2 1 (min2 10 ?b)) 1] =>
    change (in_range (round (clamp b) 1) = true) end.
  apply round1_in_range, clamp_in_range.
Qed.

Lemma label_of_cut_points s :
  (label_of s = NEGATIVE <-> (s <=? 3.5)%float = true) /\
  (label_of s = POSITIVE <-> (6.5 <=? s)%float = true) /\
  (label_of s = NEUTRAL <-> (s <=? 3.5)%float = false /\ (6.5 <=? s)%float = false).
Proof.
  unfold label_of. pose proof (cut_points_disjoint s) as D.
  destruct (s <=? 3.5)%float, (6.5 <=? s)%float; try (exfalso; now apply D);
    repeat split; intros; try discriminate; try tauto; intuition discriminate.
Qed.

(** C4.  Every result of [analyze_sentiment], the neutral fallbacks
    included, carries the label its score determines by the fixed cut
    points: NEGATIVE iff score <= 3.5, POSITIVE iff score >= 6.5, NEUTRAL
    otherwise.  No outlier threshold enters the analysis. *)
Theorem label_by_cut_points (alnum : char -> bool) (classifier : Classifier)
    (variation : float) (text : str) (calls : nat) :
  let '(score, label) := fst (analyze_sentiment alnum classifier variation text calls) in
  (label = NEGATIVE <-> (score <=? 3.5)%float = true) /\
  (label = POSITIVE <-> (6.5 <=? score)%float = true) /\
  (label = NEUTRAL <-> (score <=? 3.5)%float = false /\ (6.5 <=? score)%float = false).
Proof.
  assert (label_of 5 = NEUTRAL) as L5 by reflexivity.
  pose proof (label_of_cut_points 5) as F. rewrite L5 in F.
  unfold analyze_sentiment.
  destruct text as [|c t]; [exact F|].
  destruct (strip (c :: t)); [exact F|].
  destruct (classifier _) as [[[p0 p1] p2]|]; [|exact F].
  cbn [fst]. apply label_of_cut_points.
Qed.

(** C5.  [is_outlier] holds exactly when the score is at most the low
    threshold or at least the high one, for all thresholds (also with
    low >= high); and the three values of the specification. *)
Theorem is_outlier_iff (score low high : float) :
  (is_outlier score low high = true <->
     (score <=? low)%float = true \/ (high <=? score)%float = true) /\
  is_outlier 3.0 3.0 7.5 = true /\
  is_outlier 3.1 3.0 7.5 = false /\
  is_outlier 7.5 3.0 7.5 = true.
Proof.
  split; [|repeat split; vm_compute; reflexivity].
  unfold is_outlier. apply orb_true_iff.
Qed.

(** C6.  On empty or whitespace-only text the analysis returns
    (5.0, NEUTRAL) and the classifier is not invoked (the call count is
    unchanged); when the classifier raises, the result is (5.0, NEUTRAL)
    too. *)
Theorem neutral_fallback (alnum : char -> bool) (classifier : Classifier)
    (variation : float) (text : str) (calls : nat) :
  (strip text = [] ->
     analyze_sentiment alnum classifier variation text calls
     = ((5.0%float, NEUTRAL), calls)) /\
  (classifier (preprocess_text alnum text) = None ->
     fst (analyze_sentiment alnum classifier variation text calls)
     = (5.0%float, NEUTRAL)).
Proof.
  unfold analyze_sentiment. split.
  - intros H. destruct text; [reflexivity|]. now rewrite H.
  - intros H. destruct text; [reflexivity|]. destruct (strip _); [reflexivity|].
    now rewrite H.
Qed.

Lemma neutral_fallback_witness :
  analyze_sentiment (Bot.unicode_alnum RefCodec.ext) (Bot.classifier RefCodec.ext)
    0.03 (lit "  ") 7 = ((5.0%float, NEUTRAL), 7) /\
  fst (analyze_sentiment (Bot.unicode_alnum RefCodec.ext) (Bot.classifier RefCodec.ext)
         0.03 (lit " boom ") 7) = (5.0%float, NEUTRAL).
Proof.
  split.
  - apply (proj1 (neutral_fallback _ _ _ _ _)). reflexivity.
  - apply (proj2 (neutral_fallback _ _ _ _ _)). reflexivity.
Defined.

End AnalyzerSpec.

(* ===================================================================== *)
(** * Text preprocessing *)
(* ===================================================================== *)

Module PreprocessSpec.
Import Py Analyzer.

(** Whether the text starts with a character of the class. *)
Definition headb (p : char -> bool) (t : str) : bool :=
  match t with x :: _ => p x | [] => false end.

Definition nonspace (c : char) : bool := negb (isspace c).

(** Literals of the source, computed. *)
Ltac lits :=
  repeat match goal with
  | |- context [lit ?s] =>
      let v := eval vm_compute in (lit s) in change (lit s) with v
  | H : context [lit ?s] |- _ =>
      let v := eval vm_compute in (lit s) in change (lit s) with v in H
  end.

(** ** [re.sub] in general *)

Lemma sub_from_skipn m r : forall s k, sub_from m r k s = re_sub m r (skipn k s).
Proof.
  induction s as [|c t IH]; intros [|k]; try reflexivity.
  cbn [sub_from skipn]. apply IH.
Qed.

Lemma re_sub_none m r c t :
  m (c :: t) = None -> re_sub m r (c :: t) = c :: re_sub m r t.
Proof. unfold re_sub. cbn [sub_from]. now intros ->. Qed.

Lemma re_sub_some m r c t n :
  m (c :: t) = Some n -> re_sub m r (c :: t) = r ++ re_sub m r (skipn (Nat.pred n) t).
Proof. unfold re_sub at 1. cbn [sub_from]. intros ->. now rewrite sub_from_skipn. Qed.

Lemma takewhile_dropwhile {A} (p : A -> bool) l : takewhile p l ++ dropwhile p l = l.
Proof. induction l as [|x l IH]; cbn; [reflexivity|]. destruct (p x); cbn; congruence. Qed.

Lemma skipn_takewhile {A} (p : A -> bool) l :
  skipn (length (takewhile p l)) l = dropwhile p l.
Proof. induction l as [|x l IH]; cbn; [reflexivity|]. destruct (p x); cbn; auto. Qed.

Lemma headb_dropwhile (p : char -> bool) (l : str) : headb p (dropwhile p l) = false.
Proof. induction l as [|x l IH]; cbn; [reflexivity|]. destruct (p x) eqn:E; cbn; auto. Qed.

(** Induction on a text with the hypothesis available for every suffix of
    the tail, as the scan resumes after a match. *)
Lemma scan_ind (P : str -> Prop) :
  P [] ->
  (forall c t, (forall k, P (skipn k t)) -> P (c :: t)) ->
  forall s, P s.
Proof.
  intros H0 Hc s.
  assert (forall n s, (length s <= n)%nat -> P s) as G.
  { induction n as [|n IH]; intros [|c t] Hl; cbn in Hl; auto; try lia.
    apply Hc. intros k. apply IH. rewrite length_skipn. lia. }
  now apply (G (length s)).
Qed.

Lemma dropwhile_skipn {A} (p : A -> bool) l : exists k, dropwhile p l = skipn k l.
Proof.
  exists (length (takewhile p l)). symmetry. apply skipn_takewhile.
Qed.

Section Patterns.
Variable alnum : char -> bool.
Abbreviation W := (isword alnum).
Abbreviation sub_men := (re_sub (mention_re alnum) (lit "@user")).
Abbreviation sub_url := (re_sub url_re (lit "http")).
Abbreviation sub_sp := (re_sub space_re (lit " ")).

(** ** The three substitutions, unfolded *)

Lemma sub_men_cons c t :
  sub_men (c :: t) =
  if (c =? 64)%N && headb W t then lit "@user" ++ sub_men (dropwhile W t)
  else c :: sub_men t.
Proof.
  destruct ((c =? 64)%N && headb W t) eqn:E.
  - apply andb_true_iff in E as [Ec Ew]. apply N.eqb_eq in Ec. subst c.
    destruct t as [|w t]; [discriminate|]. cbn in Ew.
    rewrite (re_sub_some _ _ _ _ (S (S (length (takewhile W t))))).
    + cbn [Nat.pred skipn dropwhile]. rewrite Ew. now rewrite skipn_takewhile.
    + unfold mention_re, match_seq. change (lit "@") with [64%N].
      cbn. now rewrite Ew.
  - apply re_sub_none. unfold mention_re, match_seq. change (lit "@") with [64%N].
    cbn [startswith length skipn]. rewrite N.eqb_sym.
    destruct (c =? 64)%N eqn:Ec; [|reflexivity].
    cbn in E. destruct t as [|w t]; [reflexivity|]. cbn in *. now rewrite E.
Qed.

Lemma sub_sp_cons c t :
  sub_sp (c :: t) =
  if isspace c then lit " " ++ sub_sp (dropwhile isspace t) else c :: sub_sp t.
Proof.
  destruct (isspace c) eqn:E.
  - rewrite (re_sub_some _ _ _ _ (S (length (takewhile isspace t)))).
    + cbn [Nat.pred]. now rewrite skipn_takewhile.
    + unfold space_re. cbn. now rewrite E.
  - apply re_sub_none. unfold space_re. cbn. now rewrite E.
Qed.


Lemma startswith_app s p : startswith s p = true <-> exists r, s = p ++ r.
Proof.
  revert s. induction p as [|a p IH]; intros s.
  - split; [now exists s|now destruct s].
  - destruct s as [|b s]; cbn; [split; [discriminate|intros [r Hr]; discriminate]|].
    rewrite andb_true_iff, N.eqb_eq, IH. split.
    + intros [-> [r ->]]. now exists r.
    + intros [r Hr]. injection Hr as -> ->. split; [reflexivity|now exists r].
Qed.

(** A URL starts here: [http://] or [https://] and one more character that
    is not white space. *)
Definition url_start (u : str) : bool :=
  startswith u (lit "http://") && headb nonspace (skipn 7 u)
  || startswith u (lit "https://") && headb nonspace (skipn 8 u).

Lemma url_tail_spec v n :
  match_seq (lit "://") (match_plus (fun c => negb (isspace c))) v = Some n ->
  exists x r, v = lit "://" ++ x :: r /\ nonspace x = true.
Proof.
  unfold match_seq. destruct (startswith v (lit "://")) eqn:E; [|discriminate].
  apply startswith_app in E as [r ->]. lits.
  cbn. destruct r as [|x r]; cbn; [discriminate|].
  destruct (negb (isspace x)) eqn:Ex; cbn; [|discriminate].
  intros _. now exists x, r.
Qed.

Lemma url_re_some u n : url_re u = Some n -> url_start u = true.
Proof.
  unfold url_re, match_seq at 1.
  destruct (startswith u (lit "http")) eqn:E; [|discriminate].
  apply startswith_app in E as [r ->].
  set (tail := match_seq (lit "://") _). unfold url_start. lits.
  cbn [length app skipn]. change (skipn 0 r) with r. unfold match_opt.
  destruct r as [|c r].
  - destruct (tail []) eqn:E; [|discriminate].
    apply url_tail_spec in E as (x & r & E & _). discriminate.
  - destruct (c =? 115)%N eqn:Ec.
    + apply N.eqb_eq in Ec. subst c.
      destruct (tail r) eqn:E.
      * apply url_tail_spec in E as (x & r' & -> & Hx). intros _. lits.
        cbn. rewrite Hx. reflexivity.
      * destruct (tail (115%N :: r)) eqn:E'; [|discriminate].
        apply url_tail_spec in E' as (x & r' & E' & _). discriminate.
    + destruct (tail (c :: r)) eqn:E; [|discriminate].
      apply url_tail_spec in E as (x & r' & E & Hx). rewrite E. intros _. lits.
      cbn. rewrite Hx. reflexivity.
Qed.

Lemma url_start_cases u :
  url_start u = true ->
  exists x r, nonspace x = true /\
    (u = lit "http://" ++ x :: r \/ u = lit "https://" ++ x :: r).
Proof.
  unfold url_start. rewrite orb_true_iff, !andb_true_iff, !startswith_app.
  intros [[[r ->] H]|[[r ->] H]]; lits; cbn in H;
    (destruct r as [|x r]; [discriminate|]); exists x, r; auto.
Qed.

Lemma url_start_some u :
  url_start u = true -> url_re u = Some (length (takewhile nonspace u)).
Proof.
  intros H. destruct (url_start_cases u H) as (x & r & Hx & [-> | ->]);
    unfold url_re; lits; unfold nonspace in *; cbn; rewrite Hx; reflexivity.
Qed.

Lemma sub_url_cons c t :
  sub_url (c :: t) =
  if url_start (c :: t) then lit "http" ++ sub_url (dropwhile nonspace t)
  else c :: sub_url t.
Proof.
  destruct (url_start (c :: t)) eqn:E.
  - rewrite (re_sub_some _ _ _ _ _ (url_start_some _ E)).
    destruct (url_start_cases _ E) as (x & r & Hx & [H|H]);
      lits; injection H as -> ->; unfold nonspace in *; cbn; rewrite Hx; cbn;
      now rewrite skipn_takewhile.
  - apply re_sub_none. destruct (url_re (c :: t)) eqn:E'; [|reflexivity].
    apply url_re_some in E'. congruence.
Qed.


(** ** What the scan leaves at the head *)

Lemma headb_head p (a b : str) : head a = head b -> headb p a = headb p b.
Proof. destruct a, b; cbn; congruence. Qed.

Lemma head_sub_men t : head (sub_men t) = head t.
Proof.
  destruct t as [|c t]; [reflexivity|]. rewrite sub_men_cons.
  destruct (c =? 64)%N eqn:E; [|reflexivity]. apply N.eqb_eq in E. subst c.
  now destruct (headb W t).
Qed.

Lemma head_sub_url t : head (sub_url t) = head t.
Proof.
  destruct t as [|c t]; [reflexivity|]. rewrite sub_url_cons.
  destruct (url_start (c :: t)) eqn:E; [|reflexivity].
  destruct (url_start_cases _ E) as (x & r & _ & [H|H]); lits; now injection H as ->.
Qed.

Lemma head_sub_sp t :
  head (sub_sp t) = if headb isspace t then Some 32%N else head t.
Proof.
  destruct t as [|c t]; [reflexivity|]. rewrite sub_sp_cons. cbn [headb].
  now destruct (isspace c).
Qed.

(** ** Texts the substitutions leave alone *)

(** A property of every non-empty suffix of a text. *)
Fixpoint tails_all (Q : str -> Prop) (t : str) : Prop :=
  match t with
  | [] => True
  | _ :: t' => Q t /\ tails_all Q t'
  end.

Lemma tails_all_skipn Q : forall k t, tails_all Q t -> tails_all Q (skipn k t).
Proof.
  induction k as [|k IH]; intros [|c t] H; auto. cbn [skipn]. apply IH, H.
Qed.

Lemma tails_all_dropwhile Q p t : tails_all Q t -> tails_all Q (dropwhile p t).
Proof.
  destruct (dropwhile_skipn p t) as [k ->]. apply tails_all_skipn.
Qed.

(** Every mention is the placeholder: after [@], a run of word characters
    is exactly [user]. *)
Definition mention_ok (u : str) : Prop :=
  forall u' : str, u = 64%N :: u' -> headb W u' = true -> takewhile W u' = lit "user".

(** No URL starts here. *)
Definition url_ok (u : str) : Prop := url_start u = false.

(** White space is a single space. *)
Definition space_ok (u : str) : Prop :=
  forall (c : char) (r : str),
    u = c :: r -> isspace c = true -> c = 32%N /\ headb isspace r = false.

Lemma sub_men_fixed : forall t, tails_all mention_ok t -> sub_men t = t.
Proof.
  induction t as [|c t IH] using scan_ind; [reflexivity|]. intros [Hc Ht].
  rewrite sub_men_cons. destruct ((c =? 64)%N && headb W t) eqn:E.
  - apply andb_true_iff in E as [Ec Ew]. apply N.eqb_eq in Ec. subst c.
    specialize (Hc t eq_refl Ew).
    destruct (dropwhile_skipn W t) as [k Hk]. rewrite Hk, IH, <- Hk.
    + rewrite <- (takewhile_dropwhile W t) at 2. rewrite Hc. reflexivity.
    + now apply tails_all_skipn.
  - f_equal. apply (IH 0%nat), Ht.
Qed.

Lemma sub_url_fixed : forall t, tails_all url_ok t -> sub_url t = t.
Proof.
  induction t as [|c t IH]; [reflexivity|]. intros [Hc Ht].
  rewrite sub_url_cons, Hc, IH; auto.
Qed.

Lemma sub_sp_fixed : forall t, tails_all space_ok t -> sub_sp t = t.
Proof.
  induction t as [|c t IH]; [reflexivity|]. intros [Hc Ht].
  rewrite sub_sp_cons. destruct (isspace c) eqn:E.
  - destruct (Hc c t eq_refl E) as [-> Hh].
    assert (dropwhile isspace t = t) as -> by (destruct t; cbn in *; [|rewrite Hh]; auto).
    rewrite IH; auto.
  - rewrite IH; auto.
Qed.

(** ** The output of the mention substitution *)

Lemma isword_user : forallb W (lit "user") = true.
Proof. reflexivity. Qed.

Lemma takewhile_user o : headb W o = false -> takewhile W (lit "user" ++ o) = lit "user".
Proof.
  intros H. lits. cbn. destruct o as [|x o]; [reflexivity|]. cbn in *. now rewrite H.
Qed.

Lemma mention_ok_user o : headb W o = false -> tails_all mention_ok o ->
  tails_all mention_ok (lit "@user" ++ o).
Proof.
  intros Ho Hall.
  change (lit "@user" ++ o) with (64%N :: lit "user" ++ o).
  split.
  - intros u' [= <-] _. now apply takewhile_user.
  - lits. cbn [app tails_all]. repeat split; try exact Hall; intros u' [=].
Qed.

Lemma sub_men_ok : forall s, tails_all mention_ok (sub_men s).
Proof.
  induction s as [|c t IH] using scan_ind; [exact I|].
  rewrite sub_men_cons. destruct ((c =? 64)%N && headb W t) eqn:E.
  - destruct (dropwhile_skipn W t) as [k Hk]. apply mention_ok_user.
    + rewrite (headb_head _ _ _ (head_sub_men _)). apply headb_dropwhile.
    + rewrite Hk. apply IH.
  - split; [|apply (IH 0%nat)].
    intros u' [= -> <-]. rewrite (headb_head _ _ _ (head_sub_men _)).
    cbn in E. congruence.
Qed.


Lemma user_split t :
  takewhile W t = lit "user" ->
  t = lit "user" ++ dropwhile W t /\ headb W (dropwhile W t) = false.
Proof.
  intros H. split; [|apply headb_dropwhile].
  rewrite <- H. symmetry. apply takewhile_dropwhile.
Qed.

Lemma sub_url_user d : sub_url (lit "user" ++ d) = lit "user" ++ sub_url d.
Proof. lits. cbn [app]. now rewrite !sub_url_cons. Qed.

Lemma sub_sp_user d : sub_sp (lit "user" ++ d) = lit "user" ++ sub_sp d.
Proof. lits. cbn [app]. now rewrite !sub_sp_cons. Qed.

Lemma headb_word_sub_sp d : headb W d = false -> headb W (sub_sp d) = false.
Proof.
  intros H. pose proof (head_sub_sp d) as Hh.
  destruct (headb isspace d).
  - destruct (sub_sp d); [reflexivity|]. now injection Hh as ->.
  - now rewrite (headb_head _ _ _ Hh).
Qed.

Lemma sub_url_keeps_mentions :
  forall t, tails_all mention_ok t -> tails_all mention_ok (sub_url t).
Proof.
  induction t as [|c t IH] using scan_ind; [auto|]. intros [Hc Ht].
  rewrite sub_url_cons. destruct (url_start (c :: t)) eqn:E.
  - destruct (dropwhile_skipn nonspace t) as [k ->]. lits. cbn [app tails_all].
    repeat split; try (intros u' [=]; fail). apply IH. now apply tails_all_skipn.
  - split; [|apply (IH 0%nat), Ht].
    intros u' [= -> <-] Hw. rewrite (headb_head _ _ _ (head_sub_url _)) in Hw.
    destruct (user_split t (Hc t eq_refl Hw)) as [Ht' Hd]. rewrite Ht', sub_url_user.
    apply takewhile_user. now rewrite (headb_head _ _ _ (head_sub_url _)).
Qed.

Lemma sub_sp_keeps_mentions :
  forall t, tails_all mention_ok t -> tails_all mention_ok (sub_sp t).
Proof.
  induction t as [|c t IH] using scan_ind; [auto|]. intros [Hc Ht].
  rewrite sub_sp_cons. destruct (isspace c) eqn:E.
  - destruct (dropwhile_skipn isspace t) as [k ->]. lits. cbn [app tails_all].
    split; [intros u' [=]|]. apply IH. now apply tails_all_skipn.
  - split; [|apply (IH 0%nat), Ht].
    intros u' [= -> <-] Hw.
    assert (headb W t = true) as Hwt.
    { destruct (headb W t) eqn:F; [reflexivity|].
      now rewrite (headb_word_sub_sp t F) in Hw. }
    destruct (user_split t (Hc t eq_refl Hwt)) as [Ht' Hd]. rewrite Ht', sub_sp_user.
    apply takewhile_user. now apply headb_word_sub_sp.
Qed.

(** ** The output of the URL substitution *)

Lemma sub_url_inv t a o :
  sub_url t = a :: o -> a <> 104%N -> exists t', t = a :: t' /\ sub_url t' = o.
Proof.
  destruct t as [|c t]; [discriminate|]. rewrite sub_url_cons.
  destruct (url_start (c :: t)).
  - lits. intros [= <- _] Ha. congruence.
  - intros [= -> <-] _. now eexists.
Qed.

Lemma sub_sp_inv t a o :
  sub_sp t = a :: o -> isspace a = false -> exists t', t = a :: t' /\ sub_sp t' = o.
Proof.
  destruct t as [|c t]; [discriminate|]. rewrite sub_sp_cons.
  destruct (isspace c) eqn:E.
  - lits. intros [= <- _] Ha. discriminate.
  - intros [= -> <-] _. now eexists.
Qed.

Lemma url_start_http x r : nonspace x = true -> url_start (lit "http://" ++ x :: r) = true.
Proof. intros H. unfold url_start. lits. cbn. now rewrite H. Qed.

Lemma url_start_https x r : nonspace x = true -> url_start (lit "https://" ++ x :: r) = true.
Proof. intros H. unfold url_start. lits. cbn. now rewrite H. Qed.

Lemma url_start_sub_url c t : url_start (c :: sub_url t) = true -> url_start (c :: t) = true.
Proof.
  intros H. destruct (url_start_cases _ H) as (x & r & Hx & [E|E]); lits;
    injection E as -> E;
    repeat (apply sub_url_inv in E as (? & -> & E); [|discriminate]);
    match type of E with sub_url ?t6 = _ =>
      pose proof (head_sub_url t6) as Hh; rewrite E in Hh;
      destruct t6 as [|y t']; [discriminate|]; injection Hh as <-
    end.
  - now apply (url_start_http x).
  - now apply (url_start_https x).
Qed.

Lemma url_start_sub_sp c t : url_start (c :: sub_sp t) = true -> url_start (c :: t) = true.
Proof.
  intros H. destruct (url_start_cases _ H) as (x & r & Hx & [E|E]); lits;
    injection E as -> E;
    repeat (apply sub_sp_inv in E as (? & -> & E); [|reflexivity]);
    (apply sub_sp_inv in E as (? & -> & E); [|now apply negb_true_iff]).
  - now apply (url_start_http x).
  - now apply (url_start_https x).
Qed.

Lemma url_start_http_space o :
  headb nonspace o = false -> url_start (lit "http" ++ o) = false.
Proof.
  intros H. unfold url_start. lits. destruct o as [|x o]; [reflexivity|].
  cbn [app startswith skipn headb] in *. rewrite !N.eqb_refl. cbn [andb].
  destruct (58 =? x)%N eqn:E1; [apply N.eqb_eq in E1; now subst x|].
  destruct (115 =? x)%N eqn:E2; [apply N.eqb_eq in E2; now subst x|]. reflexivity.
Qed.

Lemma sub_url_ok : forall s, tails_all url_ok (sub_url s).
Proof.
  induction s as [|c t IH] using scan_ind; [exact I|].
  rewrite sub_url_cons. destruct (url_start (c :: t)) eqn:E.
  - destruct (dropwhile_skipn nonspace t) as [k Hk].
    assert (url_start (lit "http" ++ sub_url (dropwhile nonspace t)) = false) as H0.
    { apply url_start_http_space. rewrite (headb_head _ _ _ (head_sub_url _)).
      apply headb_dropwhile. }
    revert H0. rewrite Hk. lits. cbn [app tails_all]. intros H0.
    repeat split; try reflexivity; [exact H0|apply IH].
  - split; [|apply (IH 0%nat)]. unfold url_ok.
    destruct (url_start (c :: sub_url t)) eqn:F; [|reflexivity].
    apply url_start_sub_url in F. congruence.
Qed.

Lemma sub_sp_keeps_urls :
  forall t, tails_all url_ok t -> tails_all url_ok (sub_sp t).
Proof.
  induction t as [|c t IH] using scan_ind; [auto|]. intros [Hc Ht].
  rewrite sub_sp_cons. destruct (isspace c) eqn:E.
  - destruct (dropwhile_skipn isspace t) as [k ->]. lits. cbn [app tails_all].
    split; [reflexivity|]. apply IH. now apply tails_all_skipn.
  - split; [|apply (IH 0%nat), Ht]. unfold url_ok in *.
    destruct (url_start (c :: sub_sp t)) eqn:F; [|reflexivity].
    apply url_start_sub_sp in F. congruence.
Qed.

(** ** The output of the white-space substitution *)

Lemma sub_sp_ok : forall s, tails_all space_ok (sub_sp s).
Proof.
  induction s as [|c t IH] using scan_ind; [exact I|].
  rewrite sub_sp_cons. destruct (isspace c) eqn:E.
  - destruct (dropwhile_skipn isspace t) as [k Hk]. lits. cbn [app tails_all].
    split; [|rewrite Hk; apply IH].
    intros c' r [= <- <-] _. split; [reflexivity|].
    pose proof (head_sub_sp (dropwhile isspace t)) as Hh.
    rewrite headb_dropwhile in Hh. rewrite (headb_head _ _ _ Hh).
    apply headb_dropwhile.
  - split; [|apply (IH 0%nat)]. intros c' r [= <- <-] Hs. congruence.
Qed.


(** ** [strip] *)

Lemma forallb_takewhile {A} (p : A -> bool) l : forallb p (takewhile p l) = true.
Proof. induction l as [|x l IH]; cbn; [reflexivity|]. destruct (p x) eqn:E; cbn; [now rewrite E|reflexivity]. Qed.

(** What [rstrip] removes is white space. *)
Lemma rstrip_split t : exists tr, t = rstrip t ++ tr /\ forallb isspace tr = true.
Proof.
  exists (rev (takewhile isspace (rev t))). split.
  - unfold rstrip. rewrite <- rev_app_distr, takewhile_dropwhile. symmetry. apply rev_involutive.
  - rewrite forallb_forall. intros x Hx. apply in_rev in Hx.
    pose proof (forallb_takewhile isspace (rev t)) as F. rewrite forallb_forall in F. auto.
Qed.

Lemma dropwhile_id (p : char -> bool) t : headb p t = false -> dropwhile p t = t.
Proof. destruct t; cbn; [reflexivity|]. now intros ->. Qed.

Lemma headb_app_l p (a b : str) : a <> [] -> headb p (a ++ b) = headb p a.
Proof. now destruct a. Qed.

Lemma strip_fixed r :
  headb isspace r = false -> headb isspace (rev r) = false -> strip r = r.
Proof.
  intros H1 H2. unfold strip, lstrip, rstrip.
  rewrite (dropwhile_id _ r H1), (dropwhile_id _ _ H2). apply rev_involutive.
Qed.

Lemma strip_idempotent t : strip (strip t) = strip t.
Proof.
  apply strip_fixed.
  - unfold strip. destruct (rstrip_split (lstrip t)) as (tr & E & _).
    destruct (rstrip (lstrip t)) as [|c r] eqn:F; [reflexivity|].
    pose proof (headb_dropwhile isspace t) as H. fold (lstrip t) in H.
    rewrite E in H. exact H.
  - unfold strip, rstrip. rewrite rev_involutive. apply headb_dropwhile.
Qed.

Lemma tails_all_app_l Q (tr : str) :
  (forall u, u <> [] -> Q (u ++ tr) -> Q u) ->
  forall p, tails_all Q (p ++ tr) -> tails_all Q p.
Proof.
  intros HQ. induction p as [|c p IH]; [easy|].
  change ((c :: p) ++ tr) with (c :: (p ++ tr)). intros [H1 H2].
  split; [|auto]. now apply HQ.
Qed.

Lemma tails_all_strip Q t :
  (forall tr u, forallb isspace tr = true -> u <> [] -> Q (u ++ tr) -> Q u) ->
  tails_all Q t -> tails_all Q (strip t).
Proof.
  intros HQ H. unfold strip.
  destruct (rstrip_split (lstrip t)) as (tr & E & Htr).
  apply (tails_all_app_l Q tr); [intros u; now apply HQ|].
  rewrite <- E. now apply tails_all_dropwhile.
Qed.

Lemma takewhile_app_cases {A} (p : A -> bool) a b :
  takewhile p (a ++ b) = takewhile p a \/
  exists y b', b = y :: b' /\ takewhile p (a ++ b) = a ++ y :: takewhile p b'.
Proof.
  induction a as [|x a IH]; cbn.
  - destruct b as [|y b]; [now left|]. cbn. destruct (p y); [right|now left].
    now exists y, b.
  - destruct (p x); [|now left].
    destruct IH as [->|(y & b' & -> & ->)]; [now left|right]. now exists y, b'.
Qed.

Lemma mention_ok_app tr u :
  forallb isspace tr = true -> u <> [] -> mention_ok (u ++ tr) -> mention_ok u.
Proof.
  intros Htr _ H u' -> Hw.
  specialize (H (u' ++ tr) eq_refl).
  rewrite headb_app_l in H by (now destruct u').
  specialize (H Hw).
  destruct (takewhile_app_cases W u' tr) as [E|(y & b' & -> & E)]; [rewrite <- E; exact H|].
  exfalso. rewrite E in H. cbn in Htr. apply andb_true_iff in Htr as [Hy _].
  revert H. lits.
  destruct u' as [|? [|? [|? [|? [|? ?]]]]]; intros [=]; subst; discriminate.
Qed.

Lemma url_ok_app tr u : u <> [] -> url_ok (u ++ tr) -> url_ok u.
Proof.
  intros _ H. unfold url_ok in *. destruct (url_start u) eqn:E; [|reflexivity].
  destruct (url_start_cases _ E) as (x & r & Hx & [-> | ->]); rewrite <- H, <- app_assoc.
  - symmetry. now apply (url_start_http x).
  - symmetry. now apply (url_start_https x).
Qed.

Lemma space_ok_app tr u : u <> [] -> space_ok (u ++ tr) -> space_ok u.
Proof.
  intros _ H c r -> Hc. destruct (H c (r ++ tr) eq_refl Hc) as [-> Hh].
  split; [reflexivity|]. destruct r; [reflexivity|exact Hh].
Qed.

(** ** Idempotence *)

Lemma preprocess_text_ok s :
  let t := preprocess_text alnum s in
  tails_all mention_ok t /\ tails_all url_ok t /\ tails_all space_ok t.
Proof.
  unfold preprocess_text. repeat split.
  - apply tails_all_strip; [intros; now apply (mention_ok_app tr)|].
    apply sub_sp_keeps_mentions, sub_url_keeps_mentions, sub_men_ok.
  - apply tails_all_strip; [intros; now apply (url_ok_app tr)|].
    apply sub_sp_keeps_urls, sub_url_ok.
  - apply tails_all_strip; [intros; now apply (space_ok_app tr)|].
    apply sub_sp_ok.
Qed.

End Patterns.

(** C10.  Preprocessing a preprocessed text changes nothing: in it every
    mention is the placeholder, no URL is left, white space is single
    spaces, and the ends are trimmed. *)
Theorem preprocess_text_idempotent (alnum : char -> bool) (s : str) :
  preprocess_text alnum (preprocess_text alnum s) = preprocess_text alnum s.
Proof.
  destruct (preprocess_text_ok alnum s) as (Hm & Hu & Hs).
  unfold preprocess_text at 1.
  rewrite (sub_men_fixed alnum _ Hm), (sub_url_fixed _ Hu), (sub_sp_fixed _ Hs).
  unfold preprocess_text. apply strip_idempotent.
Qed.

End PreprocessSpec.

(* ===================================================================== *)
(** * The session buffer and the stores *)
(* ===================================================================== *)

Module BotSpec.
Import Py Analyzer Bot.
Local Open Scope bot_scope.

(** The state a computation ends in. *)
Definition exec {A} (c : M A) (st : State) : State := snd (c st).

(** A handler that swallows every exception makes the call return. *)

Lemma try_unit (c : M unit) st :
  try_except c (fun _ => ret tt) st = (inr tt, exec c st).
Proof. unfold try_except, exec, ret. destruct (c st) as [[e|[]] s]; reflexivity. Qed.

Lemma save_current_data_ok cfg ext now st :
  save_current_data cfg ext now st = (inr tt, exec (save_current_data cfg ext now) st).
Proof.
  unfold save_current_data at 1. rewrite try_unit.
  unfold exec at 2, save_current_data. rewrite try_unit. reflexivity.
Qed.

(** The path of the outlier store [handle_message] writes to, which is
    never the path of a per-day store. *)
Definition outlier_file (cfg : Config) (now : Clock) : str :=
  path_join (LOG_DIRECTORY cfg) (lit "outliers_" ++ strftime_Ym now ++ lit ".json").

Lemma outlier_file_not_data_file cfg now d : outlier_file cfg now <> data_file cfg d.
Proof.
  unfold outlier_file, data_file, path_join.
  destruct (LOG_DIRECTORY cfg) as [|c dir] eqn:E.
  - discriminate.
  - rewrite <- E. destruct (decide _).
    + intros H. apply app_inv_head in H. discriminate.
    + intros H. apply app_inv_head in H. discriminate.
Qed.

(** What one call of [_save_to_json] can change. *)
Record only_wrote (path : str) (st st' : State) : Prop := {
  ow_messages : session_messages st' = session_messages st;
  ow_outliers : session_outliers st' = session_outliers st;
  ow_calls : model_calls st' = model_calls st;
  ow_writes : exists ws, writes st' = writes st ++ ws /\ Forall (fun w => fst w = path) ws;
  ow_files : forall p, p <> path -> files st' !! p = files st !! p
}.

Lemma save_to_json_only_wrote cfg ext data filename st :
  _save_to_json cfg ext data filename st
  = (inr tt, exec (_save_to_json cfg ext data filename) st) /\
  only_wrote (path_join (LOG_DIRECTORY cfg) filename) st
    (exec (_save_to_json cfg ext data filename) st).
Proof.
  unfold exec, _save_to_json, try_except, bind, gets. cbn [fst snd].
  set (existing := match files st !! _ with Some _ => _ | None => _ end).
  assert (only_wrote (path_join (LOG_DIRECTORY cfg) filename) st st) as Same.
  { split; auto. exists []. split; [now rewrite app_nil_r|constructor]. }
  destruct existing; cbn; (split; [reflexivity|]); try exact Same.
  split; try reflexivity.
  - eexists; split; [reflexivity|]. repeat constructor.
  - intros p Hp. cbn. now rewrite lookup_insert_ne.
Qed.

(** The state after a flush that found [existing] in the per-day file. *)
Definition flushed (cfg : Config) (ext : Externals) (now : Clock)
    (existing : list value) (st : State) : State :=
  let path := data_file cfg (strftime_Ymd now) in
  let content := json_dumps ext (VList (existing ++ session_messages st)) in
  {| session_messages := [];
     session_outliers := session_outliers st;
     files := <[path := content]> (files st);
     writes := writes st ++ [(path, content)];
     model_calls := model_calls st |}.

Lemma save_current_data_empty cfg ext now st :
  session_messages st = [] -> exec (save_current_data cfg ext now) st = st.
Proof.
  intros E. unfold exec, save_current_data, try_except, bind, gets. cbn.
  rewrite E. reflexivity.
Qed.

Lemma save_current_data_flush cfg ext now existing st :
  session_messages st <> [] ->
  read_existing ext (files st) (data_file cfg (strftime_Ymd now)) = inr (VList existing) ->
  exec (save_current_data cfg ext now) st = flushed cfg ext now existing st.
Proof.
  intros Hne R. unfold exec, save_current_data, try_except, bind, gets, lift. cbn.
  destruct (session_messages st) as [|r buf] eqn:E; [congruence|].
  cbn. rewrite R. cbn. unfold flushed. rewrite E. reflexivity.
Qed.

Lemma save_current_data_raise cfg ext now e st :
  read_existing ext (files st) (data_file cfg (strftime_Ymd now)) = inl e ->
  exec (save_current_data cfg ext now) st = st.
Proof.
  intros R. unfold exec, save_current_data, try_except, bind, gets, lift. cbn.
  destruct (session_messages st) as [|r buf] eqn:E; [reflexivity|].
  cbn. rewrite R. reflexivity.
Qed.

(** ** Messages in sequence

    One incoming message, with the clock and the jitter of its handling. *)
Record Event := { ev_now : Clock; ev_variation : float; ev_message : Message }.

(** The messages [handle_message] does not drop: with a text, and from the
    monitored chat when one is configured. *)

Definition accepted (cfg : Config) (message : Message) : Prop :=
  (exists t, text message = Some t /\ t <> []) /\
  (MONITOR_CHAT_ID cfg = 0%Z \/ chat_id message = MONITOR_CHAT_ID cfg).

(** The record [handle_message] appends for an accepted message. *)
Definition record_of (ext : Externals) (ev : Event) : value :=
  let message := ev_message ev in
  let t := match text message with Some t => t | None => [] end in
  let r := fst (analyze_sentiment (unicode_alnum ext) (classifier ext)
                  (ev_variation ev) t 0) in
  message_data message t (fst r) (snd r).

Definition handle (cfg : Config) (ext : Externals) (ev : Event) : State -> State :=
  exec (handle_message cfg ext (ev_now ev) (ev_variation ev) (Some (ev_message ev))).

(** The result of the analysis does not depend on the call count. *)
Lemma analyze_sentiment_result alnum cl v t n :
  fst (analyze_sentiment alnum cl v t n) = fst (analyze_sentiment alnum cl v t 0).
Proof.
  unfold analyze_sentiment.
  destruct t; [reflexivity|]. destruct (strip _); [reflexivity|].
  destruct (cl _) as [[[? ?] ?]|]; reflexivity.
Qed.



(** A write that does not go to any per-day store. *)
Definition not_day_store (cfg : Config) (w : str * str) : Prop :=
  forall d, fst w <> data_file cfg d.

Definition run (cfg : Config) (ext : Externals) (evs : list Event) (st : State) : State :=
  fold_left (fun st ev => handle cfg ext ev st) evs st.




(** A running example: the default configuration for chat 42, the
    reference codec, and a message of that chat. *)
Definition cfg0 : Config := default_config 42.

Definition clock0 : Clock :=
  {| strftime_Ymd := lit "2024-05-01"; strftime_Ym := lit "2024-05";
     isoformat := lit "2024-05-01T23:59:00" |}.

Definition message0 (n : Z) : Message :=
  {| message_id := n; chat_id := 42;
     from_user := Some {| user_id := 7; username := None |};
     text := Some (lit "good day @bob");
     date := lit "2024-05-01T10:00:00+00:00" |}.

Definition event0 (n : Z) : Event :=
  {| ev_now := clock0; ev_variation := 0.01; ev_message := message0 n |}.

Lemma accepted_message0 n : accepted cfg0 (message0 n).
Proof. split; [eexists; split; [reflexivity|discriminate]|right; reflexivity]. Qed.


(** The JSON library returns what it printed: the printed text is not
    blank and parses back to the value. *)
Definition round_trips (ext : Externals) (v : value) : Prop :=
  strip (json_dumps ext v) <> [] /\ json_loads ext (json_dumps ext v) = Some v.


Definition state0 : State :=
  {| session_messages := [record_of RefCodec.ext (event0 2)];
     session_outliers := 1;
     files := {[ data_file cfg0 (lit "2024-05-01") :=
                   RefCodec.dumps (VList [record_of RefCodec.ext (event0 1)]) ]};
     writes := [];
     model_calls := 2 |}.


(** C8, on the per-day store.  When the per-day file holds text that is
    not blank and not JSON, [json.loads] raises inside [save_current_data]
    and the handler swallows it: the file is not overwritten, no write
    happens, and the buffer is kept.  The file is not treated as an empty
    store. *)
Theorem corrupt_day_store_blocks_flush (cfg : Config) (ext : Externals) (now : Clock)
    (st : State) (content : str) :
  files st !! data_file cfg (strftime_Ymd now) = Some content ->
  strip content <> [] ->
  json_loads ext content = None ->
  exec (save_current_data cfg ext now) st = st.
Proof.
  intros Hf Hblank Hloads.
  apply (save_current_data_raise cfg ext now JSONDecodeError).
  unfold read_existing. rewrite Hf.
  destruct (strip content); [congruence|]. now rewrite Hloads.
Qed.

Definition state_corrupt : State :=
  {| session_messages := map (fun n => record_of RefCodec.ext (event0 n))
                           [1; 2; 3; 4; 5; 6; 7; 8; 9; 10]%Z;
     session_outliers := 10;
     files := {[ data_file cfg0 (lit "2024-05-01") := lit "{" ]};
     writes := [];
     model_calls := 10 |}.

Lemma corrupt_day_store_blocks_flush_witness :
  exec (save_current_data cfg0 RefCodec.ext clock0) state_corrupt = state_corrupt.
Proof.
  refine (corrupt_day_store_blocks_flush cfg0 RefCodec.ext clock0 state_corrupt
            (lit "{") _ _ _).
  - vm_compute. reflexivity.
  - intros H. vm_compute in H. discriminate H.
  - vm_compute. reflexivity.
Defined.

(** The outlier store and the daily-report store behave otherwise:
    [_save_to_json] reads a file that is not JSON as an empty store and
    overwrites it with the new entry alone. *)
Lemma save_to_json_overwrites_corrupt (cfg : Config) (ext : Externals)
    (data : value) (filename : str) (st : State) (content : str) :
  let path := path_join (LOG_DIRECTORY cfg) filename in
  files st !! path = Some content ->
  json_loads ext content = None ->
  let st' := exec (_save_to_json cfg ext data filename) st in
  files st' !! path = Some (json_dumps ext (VList [data])) /\
  writes st' = writes st ++ [(path, json_dumps ext (VList [data]))].
Proof.
  intros path Hf Hloads st'. subst st'.
  unfold exec, _save_to_json, try_except, bind, gets. cbn [fst snd].
  fold path. rewrite Hf, Hloads. cbn. split; [apply lookup_insert_eq|reflexivity].
Qed.

(** ** The daily report *)

(** The records of the buffer are the dictionaries [handle_message]
    builds. *)
Definition is_record (v : value) : Prop :=
  exists message text score label, v = message_data message text score label.

Lemma getitem_timestamp m t s l :
  getitem (message_data m t s l) (lit "timestamp") = inr (VStr (date m)).
Proof. reflexivity. Qed.

Lemma getitem_sentiment_score m t s l :
  getitem (message_data m t s l) (lit "sentiment_score") = inr (VFloat s).
Proof. reflexivity. Qed.

(** No record has the key [is_outlier]. *)
Lemma getitem_is_outlier m t s l :
  getitem (message_data m t s l) (lit "is_outlier") = inl KeyError.
Proof. reflexivity. Qed.

Lemma today_messages_records today buf :
  Forall is_record buf ->
  exists l,
    filterR (fun msg => rbind (getitem msg (lit "timestamp"))
                          (fun ts => value_startswith ts today)) buf = inr l /\
    Forall is_record l.
Proof.
  induction 1 as [|v buf (m & t & s & l & ->) _ (l' & IH & Hl')].
  - exists []. split; auto.
  - cbn [filterR]. rewrite getitem_timestamp. cbn [rbind value_startswith].
    rewrite IH. cbn [rbind].
    destruct (startswith (date m) today).
    + eexists; split; [reflexivity|].
      constructor; [now exists m, t, s, l|exact Hl'].
    + exists l'. split; [reflexivity|exact Hl'].
Qed.

Lemma scores_records l :
  Forall is_record l ->
  exists scores,
    mapR (fun msg => rbind (getitem msg (lit "sentiment_score")) as_float) l
    = inr scores.
Proof.
  induction 1 as [|v l' (m & t & s & lb & ->) _ (scores & IH)].
  - now exists [].
  - cbn [mapR]. rewrite getitem_sentiment_score. cbn [rbind as_float].
    rewrite IH. cbn [rbind]. now eexists.
Qed.

(** On a buffer of records the report body either finds no message of the
    day or raises [KeyError] at [msg["is_outlier"]]: it never builds a
    report. *)
Lemma daily_report_records now buf :
  Forall is_record buf ->
  daily_report now buf = inr None \/ daily_report now buf = inl KeyError.
Proof.
  intros Hrec. unfold daily_report.
  destruct (today_messages_records (strftime_Ymd now) buf Hrec) as (l & -> & Hl).
  cbn [rbind]. destruct l as [|v l]; [now left|right].
  destruct (scores_records (v :: l) Hl) as (scores & ->). cbn [rbind].
  inversion Hl as [|? ? (m & t & s & lb & ->) _]; subst.
  cbn [filterR]. now rewrite getitem_is_outlier.
Qed.

Lemma generate_daily_report_exec cfg ext now st r :
  daily_report now (session_messages st) = r ->
  (r = inr None \/ exists e, r = inl e) ->
  exec (generate_daily_report cfg ext now) st = st.
Proof.
  intros E Hr. unfold exec, generate_daily_report, try_except, bind, gets, lift.
  cbn [fst snd]. rewrite E. destruct Hr as [->|(e & ->)]; reflexivity.
Qed.

(** C2.  With the three records of the claim in the buffer, all of today's
    date, the report body raises [KeyError] at [msg["is_outlier"]], the
    handler swallows it, and [generate_daily_report] leaves the state as it
    was: no report is appended to the daily-report store. *)
Theorem daily_report_key_error (cfg : Config) (ext : Externals) (now : Clock)
    (st : State) (m1 m2 m3 : Message) (t1 t2 t3 : str) (l1 l2 l3 : Label) :
  session_messages st =
    [message_data m1 t1 2.0 l1; message_data m2 t2 5.0 l2; message_data m3 t3 9.0 l3] ->
  startswith (date m1) (strftime_Ymd now) = true ->
  startswith (date m2) (strftime_Ymd now) = true ->
  startswith (date m3) (strftime_Ymd now) = true ->
  daily_report now (session_messages st) = inl KeyError /\
  exec (generate_daily_report cfg ext now) st = st.
Proof.
  intros Hbuf H1 H2 H3.
  assert (daily_report now (session_messages st) = inl KeyError) as E.
  { rewrite Hbuf. unfold daily_report. cbn [filterR].
    rewrite !getitem_timestamp. cbn [rbind value_startswith].
    rewrite H1, H2, H3. cbn [rbind mapR].
    rewrite !getitem_sentiment_score. cbn [rbind as_float filterR].
    now rewrite getitem_is_outlier. }
  split; [exact E|].
  eapply generate_daily_report_exec; [exact E|]. right. now eexists.
Qed.

Definition state_report : State :=
  {| session_messages :=
       [message_data (message0 1) (lit "bad") 2.0 NEGATIVE;
        message_data (message0 2) (lit "so so") 5.0 NEUTRAL;
        message_data (message0 3) (lit "great") 9.0 POSITIVE];
     session_outliers := 2;
     files := ∅;
     writes := [];
     model_calls := 3 |}.

Lemma daily_report_key_error_witness :
  daily_report clock0 (session_messages state_report) = inl KeyError /\
  exec (generate_daily_report cfg0 RefCodec.ext clock0) state_report = state_report.
Proof.
  exact (daily_report_key_error cfg0 RefCodec.ext clock0 state_report
           (message0 1) (message0 2) (message0 3) (lit "bad") (lit "so so") (lit "great")
           NEGATIVE NEUTRAL POSITIVE eq_refl eq_refl eq_refl eq_refl).
Defined.

(** Whatever records the buffer holds, [generate_daily_report] writes
    nothing. *)
Lemma generate_daily_report_writes_nothing cfg ext now st :
  Forall is_record (session_messages st) ->
  exec (generate_daily_report cfg ext now) st = st.
Proof.
  intros Hrec. eapply generate_daily_report_exec; [reflexivity|].
  destruct (daily_report_records now _ Hrec) as [->| ->]; [now left|right; now eexists].
Qed.

(** Were the key present, the rest of the body would build the report the
    specification describes: on the three scores with the flags the default
    thresholds give, 3 messages, average 5.33, 2 outliers, one message per
    class, top scores 9.0 and 2.0. *)
Definition with_flag (v : value) (flag : bool) : value :=
  match v with
  | VDict d => VDict (d ++ [(lit "is_outlier", VBool flag)])
  | _ => v
  end.

Lemma daily_report_with_flags :
  daily_report clock0
    (map (fun v => with_flag v
                     (match getitem v (lit "sentiment_score") with
                      | inr (VFloat s) => is_outlier s 3.0 7.5
                      | _ => false
                      end))
         (session_messages state_report))
  = inr (Some (VDict [
      (lit "date", VStr (lit "2024-05-01"));
      (lit "total_messages", VInt 3);
      (lit "average_sentiment", VFloat 5.33);
      (lit "outliers_count", VInt 2);
      (lit "sentiment_distribution",
       VDict [(lit "positive", VInt 1); (lit "neutral", VInt 1); (lit "negative", VInt 1)]);
      (lit "top_positive", VFloat 9.0);
      (lit "top_negative", VFloat 2.0);
      (lit "generated_at", VStr (lit "2024-05-01T23:59:00"))])).
Proof. vm_compute. reflexivity. Qed.

End BotSpec.


(* ===================================================================== *)
(** * The order of binary64 numbers *)
(* ===================================================================== *)

Module FloatOrder.
Local Open Scope Z_scope.

(** A float that is not NaN, placed on a lexicographic scale: class and
    sign first, then exponent, then mantissa. *)
Definition rank (f : spec_float) : option (Z * Z * Z) :=
  match f with
  | S754_nan => None
  | S754_infinity true => Some (-2, 0, 0)
  | S754_infinity false => Some (2, 0, 0)
  | S754_zero _ => Some (0, 0, 0)
  | S754_finite false m e => Some (1, e, Zpos m)
  | S754_finite true m e => Some (-1, - e, Zneg m)
  end.

Definition lex_le (a b : Z * Z * Z) : Prop :=
  let '(a1, a2, a3) := a in
  let '(b1, b2, b3) := b in
  a1 < b1 \/ (a1 = b1 /\ (a2 < b2 \/ (a2 = b2 /\ a3 <= b3))).

Definition lex_lt (a b : Z * Z * Z) : Prop :=
  let '(a1, a2, a3) := a in
  let '(b1, b2, b3) := b in
  a1 < b1 \/ (a1 = b1 /\ (a2 < b2 \/ (a2 = b2 /\ a3 < b3))).

Ltac compare_cases :=
  cbv beta iota delta [SFleb SFltb SFcompare rank lex_le lex_lt];
  repeat match goal with
  | |- context [Pos.compare_cont Eq ?m1 ?m2] =>
      change (Pos.compare_cont Eq m1 m2) with (Pos.compare m1 m2);
      destruct (Pos.compare_spec m1 m2)
  | |- context [Z.compare ?e1 ?e2] => destruct (Z.compare_spec e1 e2)
  end.

Lemma SFleb_rank f1 f2 :
  SFleb f1 f2 = true <->
  exists a b, rank f1 = Some a /\ rank f2 = Some b /\ lex_le a b.
Proof.
  split.
  - destruct f1 as [[]|[]| |[] m1 e1], f2 as [[]|[]| |[] m2 e2]; compare_cases;
      cbn; try discriminate; intros _; do 2 eexists;
      (split; [reflexivity|split; [reflexivity|]]); cbn; lia.
  - intros (a & b & Ha & Hb & Hle).
    destruct f1 as [[]|[]| |[] m1 e1], f2 as [[]|[]| |[] m2 e2]; try discriminate;
      injection Ha as <-; injection Hb as <-; compare_cases; cbn in *;
      try reflexivity; exfalso; lia.
Qed.

Lemma SFltb_rank f1 f2 :
  SFltb f1 f2 = true <->
  exists a b, rank f1 = Some a /\ rank f2 = Some b /\ lex_lt a b.
Proof.
  split.
  - destruct f1 as [[]|[]| |[] m1 e1], f2 as [[]|[]| |[] m2 e2]; compare_cases;
      cbn; try discriminate; intros _; do 2 eexists;
      (split; [reflexivity|split; [reflexivity|]]); cbn; lia.
  - intros (a & b & Ha & Hb & Hle).
    destruct f1 as [[]|[]| |[] m1 e1], f2 as [[]|[]| |[] m2 e2]; try discriminate;
      injection Ha as <-; injection Hb as <-; compare_cases; cbn in *;
      try reflexivity; exfalso; lia.
Qed.

(** NaN, on the primitive floats. *)
Lemma is_nan_SF x : is_nan x = true -> Prim2SF x = S754_nan.
Proof. unfold Prim2SF. now intros ->. Qed.

Lemma not_nan_rank x : is_nan x = false -> exists a, rank (Prim2SF x) = Some a.
Proof.
  unfold Prim2SF. intros ->.
  destruct (is_zero x); [now eexists|].
  destruct (is_infinity x); [destruct (get_sign x); now eexists|].
  destruct (Z.frexp x) as [r e]. destruct (shr_fexp _ _ _ _ _) as [shr e'].
  destruct (shr_m shr); try now eexists. destruct (get_sign x); now eexists.
Qed.

Lemma rank_not_nan x a : rank (Prim2SF x) = Some a -> is_nan x = false.
Proof.
  intros H. destruct (is_nan x) eqn:E; [|reflexivity].
  rewrite (is_nan_SF x E) in H. discriminate.
Qed.

Lemma leb_rank x y :
  (x <=? y)%float = true <->
  exists a b, rank (Prim2SF x) = Some a /\ rank (Prim2SF y) = Some b /\ lex_le a b.
Proof. rewrite leb_spec. apply SFleb_rank. Qed.

Lemma ltb_rank x y :
  (x <? y)%float = true <->
  exists a b, rank (Prim2SF x) = Some a /\ rank (Prim2SF y) = Some b /\ lex_lt a b.
Proof. rewrite ltb_spec. apply SFltb_rank. Qed.

Ltac ranks :=
  repeat match goal with
  | H : (_ <=? _)%float = true |- _ => apply leb_rank in H; destruct H as (? & ? & ? & ? & H)
  | H : (_ <? _)%float = true |- _ => apply ltb_rank in H; destruct H as (? & ? & ? & ? & H)
  | H : is_nan _ = false |- _ => apply not_nan_rank in H; destruct H as (? & H)
  end;
  repeat match goal with
  | H : rank ?f = Some ?a, H' : rank ?f = Some ?b |- _ =>
      rewrite H in H'; injection H' as <-
  end.

Ltac lex :=
  repeat match goal with a : (Z * Z * Z)%type |- _ => destruct a as [[? ?] ?] end;
  unfold lex_le, lex_lt in *; lia.

Lemma leb_trans x y z :
  (x <=? y)%float = true -> (y <=? z)%float = true -> (x <=? z)%float = true.
Proof.
  intros H1 H2. ranks. apply leb_rank. do 2 eexists. repeat split; eauto. lex.
Qed.

(** Two numbers compare one way or the other. *)
Lemma leb_or_ltb x y :
  is_nan x = false -> is_nan y = false ->
  (x <=? y)%float = true \/ (y <? x)%float = true.
Proof.
  intros Hx Hy. ranks.
  match goal with Hx : rank _ = Some ?a, Hy : rank _ = Some ?b |- _ =>
    assert (lex_le a b \/ lex_lt b a) as [L|L] by lex;
    [left; apply leb_rank|right; apply ltb_rank]; do 2 eexists; eauto
  end.
Qed.

Lemma leb_not_nan x y :
  (x <=? y)%float = true -> is_nan x = false /\ is_nan y = false.
Proof. intros H. ranks. split; eapply rank_not_nan; eauto. Qed.

Lemma nan_leb x y : is_nan x = true \/ is_nan y = true -> (x <=? y)%float = false.
Proof.
  intros H. destruct (x <=? y)%float eqn:E; [|reflexivity].
  apply leb_not_nan in E as [E1 E2]. destruct H; congruence.
Qed.

Lemma nan_ltb x y : is_nan x = true \/ is_nan y = true -> (x <? y)%float = false.
Proof.
  intros H. destruct (x <? y)%float eqn:E; [|reflexivity].
  apply FloatFacts.ltb_leb, leb_not_nan in E as [E1 E2]. destruct H; congruence.
Qed.

End FloatOrder.

(* ===================================================================== *)
(** * The analyzer: categories, outliers and scores *)
(* ===================================================================== *)

Module AnalyzerRest.
Import Py Analyzer.

(** The five strings [get_sentiment_category] returns. *)
Inductive Category := Very_Negative | Negative | Neutral | Positive | Very_Positive.

Definition category_name (c : Category) : str :=
  match c with
  | Very_Negative => lit "Very Negative"
  | Negative => lit "Negative"
  | Neutral => lit "Neutral"
  | Positive => lit "Positive"
  | Very_Positive => lit "Very Positive"
  end.

(** [get_sentiment_category] *)
Definition get_sentiment_category (score : float) : Category :=
  if (score <=? 2.0)%float then Very_Negative
  else if (score <=? 4.0)%float then Negative
  else if (score <=? 6.0)%float then Neutral
  else if (score <=? 8.0)%float then Positive
  else Very_Positive.

(** The place of a category on the scale from very negative to very
    positive. *)
Definition level (c : Category) : nat :=
  match c with
  | Very_Negative => 0 | Negative => 1 | Neutral => 2 | Positive => 3
  | Very_Positive => 4
  end.

End AnalyzerRest.

Module AnalyzerProps.
Import Py Analyzer AnalyzerRest FloatFacts FloatOrder.

Lemma convert_to_scale_tenth probabilities variation :
  exists k, (10 <= k <= 100)%Z /\ _convert_to_scale probabilities variation = tenth k.
Proof.
  unfold _convert_to_scale.
  match goal with |- context [round (max2 1 (min2 10 ?b)) 1] =>
    change (exists k, (10 <= k <= 100)%Z /\ round (clamp b) 1 = tenth k) end.
  apply round1_tenth, clamp_in_range.
Qed.

Lemma analyze_in_range alnum cl v t n :
  in_range (fst (fst (analyze_sentiment alnum cl v t n))) = true.
Proof.
  unfold analyze_sentiment.
  destruct t as [|c t]; [reflexivity|].
  destruct (strip (c :: t)); [reflexivity|].
  destruct (cl _) as [[[p0 p1] p2]|]; [|reflexivity].
  cbn [fst]. destruct (convert_to_scale_tenth
    (<[lit "LABEL_2" := p2]> (<[lit "LABEL_1" := p1]> (<[lit "LABEL_0" := p0]> ∅))) v)
    as (k & Hk & ->).
  now apply tenth_in_range.
Qed.

Lemma analyze_label alnum cl v t n :
  snd (fst (analyze_sentiment alnum cl v t n))
  = label_of (fst (fst (analyze_sentiment alnum cl v t n))).
Proof.
  unfold analyze_sentiment.
  destruct t as [|c t]; [reflexivity|].
  destruct (strip (c :: t)); [reflexivity|].
  destruct (cl _) as [[[p0 p1] p2]|]; reflexivity.
Qed.

(** X1.  The score [_convert_to_scale] returns is always a one-decimal
    number: the double nearest to k/10 for an integer k between 10 and 100,
    whatever the probabilities and the jitter. *)
Theorem score_one_decimal (probabilities : gmap str float) (variation : float) :
  exists k, (10 <= k <= 100)%Z /\
    _convert_to_scale probabilities variation = SF2Prim (sf_quot false k 10).
Proof.
  unfold _convert_to_scale.
  match goal with |- context [round (max2 1 (min2 10 ?b)) 1] =>
    destruct (round1_tenth (clamp b) (clamp_in_range b)) as (k & Hk & E)
  end.
  exists k. split; [exact Hk|]. exact E.
Qed.

Lemma sub_nan_r x y : is_nan y = true -> is_nan (x - y) = true.
Proof.
  intros H. destruct (is_nan (x - y)) eqn:E; [reflexivity|].
  apply not_nan_rank in E as (a & E). rewrite sub_spec, (is_nan_SF y H) in E.
  destruct (Prim2SF x) as [[]|[]| |[] ? ?]; discriminate.
Qed.

Lemma mul_nan_l x y : is_nan x = true -> is_nan (x * y) = true.
Proof.
  intros H. destruct (is_nan (x * y)) eqn:E; [reflexivity|].
  apply not_nan_rank in E as (a & E). rewrite mul_spec, (is_nan_SF x H) in E.
  discriminate.
Qed.

Lemma add_nan_l x y : is_nan x = true -> is_nan (x + y) = true.
Proof.
  intros H. destruct (is_nan (x + y)) eqn:E; [reflexivity|].
  apply not_nan_rank in E as (a & E). rewrite add_spec, (is_nan_SF x H) in E.
  discriminate.
Qed.

Lemma add_nan_r x y : is_nan y = true -> is_nan (x + y) = true.
Proof.
  intros H. destruct (is_nan (x + y)) eqn:E; [reflexivity|].
  apply not_nan_rank in E as (a & E). rewrite add_spec, (is_nan_SF y H) in E.
  destruct (Prim2SF x) as [[]|[]| |[] ? ?]; discriminate.
Qed.

Lemma clamp_nan b : is_nan b = true -> clamp b = 10%float.
Proof.
  intros H. unfold clamp, min2. rewrite nan_ltb by auto. reflexivity.
Qed.

(** X2.  A NaN probability for the negative class (LABEL_0) drives the
    score to the top of the scale: the confidence and the base score are
    NaN, both comparisons with NaN fail, and the clamp turns NaN into 10.0.
    The result is the rounded clamp of 10.0 plus the jitter, and 10.0 without
    jitter, whatever the other two probabilities. *)
Theorem nan_negative_probability (probabilities : gmap str float) (variation : float) :
  is_nan (get probabilities (lit "LABEL_0")) = true ->
  _convert_to_scale probabilities variation
    = round (max2 1.0 (min2 10.0 (10.0 + variation))) 1 /\
  _convert_to_scale probabilities 0 = 10.0%float.
Proof.
  intros H.
  assert (forall v, _convert_to_scale probabilities v
                    = round (clamp (10 + v)) 1) as E.
  { intros v. unfold _convert_to_scale.
    set (pn := get probabilities (lit "LABEL_0")) in *.
    set (pz := get probabilities (lit "LABEL_1")).
    set (pp := get probabilities (lit "LABEL_2")).
    assert (is_nan (pp - pn) = true) as Hpol by now apply sub_nan_r.
    assert (max3 pn pz pp = pn) as ->.
    { unfold max3, max2. rewrite (nan_ltb pn pz) by auto. now rewrite (nan_ltb pn pp) by auto. }
    rewrite !(nan_ltb (pp - pn)), !(nan_ltb _ (pp - pn)), (nan_ltb _ pn) by auto.
    match goal with |- round (max2 1 (min2 10 (max2 1 (min2 10 ?b) + v))) 1 = _ =>
      change (round (clamp (clamp b + v)) 1 = round (clamp (10 + v)) 1) end.
    match goal with |- round (clamp (clamp ?b + v)) 1 = _ =>
      rewrite (clamp_nan b); [reflexivity|] end.
    apply add_nan_r, mul_nan_l, sub_nan_r, H. }
  split; [apply E|]. rewrite E. vm_compute. reflexivity.
Qed.

Lemma nan_negative_probability_witness :
  _convert_to_scale (<[lit "LABEL_0" := nan]> ∅) 0.03
    = round (max2 1.0 (min2 10.0 (10.0 + 0.03))) 1 /\
  _convert_to_scale (<[lit "LABEL_0" := nan]> ∅) 0 = 10.0%float.
Proof. exact (nan_negative_probability (<[lit "LABEL_0" := nan]> ∅) 0.03 eq_refl). Defined.

(** X3.  [get_sentiment_category] is monotone: a score that is at most
    another one never gets a more positive category.  A NaN score falls
    through every comparison and is called Very Positive. *)
Theorem category_monotone (s1 s2 : float) :
  ((s1 <=? s2)%float = true ->
     level (get_sentiment_category s1) <= level (get_sentiment_category s2)) /\
  (is_nan s1 = true -> get_sentiment_category s1 = Very_Positive).
Proof.
  split.
  - intros H. unfold get_sentiment_category.
    pose proof (leb_trans s1 s2 2 H) as H2. pose proof (leb_trans s1 s2 4 H) as H4.
    pose proof (leb_trans s1 s2 6 H) as H6. pose proof (leb_trans s1 s2 8 H) as H8.
    destruct (s2 <=? 2)%float, (s2 <=? 4)%float, (s2 <=? 6)%float, (s2 <=? 8)%float;
      try rewrite H2 by reflexivity; try rewrite H4 by reflexivity;
      try rewrite H6 by reflexivity; try rewrite H8 by reflexivity;
      destruct (s1 <=? 2)%float, (s1 <=? 4)%float, (s1 <=? 6)%float, (s1 <=? 8)%float;
      cbn [level]; lia.
  - intros H. unfold get_sentiment_category. now rewrite !nan_leb by auto.
Qed.

Lemma category_monotone_witness :
  (level (get_sentiment_category 3.9) <= level (get_sentiment_category 4.1)) /\
  get_sentiment_category nan = Very_Positive.
Proof.
  split.
  - exact (proj1 (category_monotone 3.9 4.1) eq_refl).
  - exact (proj2 (category_monotone nan 0) eq_refl).
Defined.

(** X4.  The label and the category of a result of [analyze_sentiment]
    agree in direction, although they use different cut points: a NEGATIVE
    result is Very Negative or Negative, a POSITIVE result is Positive or
    Very Positive, and a NEUTRAL result is Negative, Neutral or Positive,
    never one of the two extremes. *)
Theorem label_and_category_agree (alnum : char -> bool) (classifier : Classifier)
    (variation : float) (text : str) (calls : nat) :
  let '(score, label) := fst (analyze_sentiment alnum classifier variation text calls) in
  match label with
  | NEGATIVE => get_sentiment_category score = Very_Negative
                \/ get_sentiment_category score = Negative
  | POSITIVE => get_sentiment_category score = Positive
                \/ get_sentiment_category score = Very_Positive
  | NEUTRAL => get_sentiment_category score = Negative
               \/ get_sentiment_category score = Neutral
               \/ get_sentiment_category score = Positive
  end.
Proof.
  pose proof (analyze_in_range alnum classifier variation text calls) as R.
  pose proof (analyze_label alnum classifier variation text calls) as L.
  destruct (fst (analyze_sentiment _ _ _ _ _)) as [score label].
  cbn [fst snd] in R, L. subst label.
  apply andb_true_iff in R as [R1 R10].
  unfold label_of, get_sentiment_category.
  destruct (score <=? 3.5)%float eqn:E35.
  { pose proof (leb_trans score 3.5 4 E35 eq_refl) as ->.
    destruct (score <=? 2)%float; auto. }
  assert ((score <=? 2)%float = false) as ->.
  { destruct (score <=? 2)%float eqn:E; [|reflexivity].
    now rewrite (leb_trans score 2 3.5 E eq_refl) in E35. }
  destruct (6.5 <=? score)%float eqn:E65.
  - assert ((score <=? 6)%float = false) as E6.
    { destruct (score <=? 6)%float eqn:E; [|reflexivity].
      pose proof (leb_trans 6.5 score 6 E65 E). discriminate. }
    assert ((score <=? 4)%float = false) as ->.
    { destruct (score <=? 4)%float eqn:E; [|reflexivity].
      now rewrite (leb_trans score 4 6 E eq_refl) in E6. }
    rewrite E6. destruct (score <=? 8)%float; auto.
  - assert ((score <=? 8)%float = true) as E8.
    { destruct (leb_or_ltb 6.5 score eq_refl) as [C|C].
      - now apply leb_not_nan in R1.
      - congruence.
      - apply ltb_leb in C. exact (leb_trans score 6.5 8 C eq_refl). }
    rewrite E8. destruct (score <=? 4)%float, (score <=? 6)%float; auto.
Qed.

(** X5.  [is_outlier] at odd inputs: a NaN score is never an outlier; and
    when the thresholds overlap (high <= low) every score that is a number
    is an outlier. *)
Theorem is_outlier_edge_cases (score low high : float) :
  (is_nan score = true -> is_outlier score low high = false) /\
  (is_nan score = false -> (high <=? low)%float = true ->
     is_outlier score low high = true).
Proof.
  unfold is_outlier. split.
  - intros H. now rewrite !nan_leb by auto.
  - intros Hs Hhl. pose proof (leb_not_nan _ _ Hhl) as [_ Hl].
    destruct (leb_or_ltb score low Hs Hl) as [C|C]; [now rewrite C|].
    apply ltb_leb in C. rewrite (leb_trans _ _ _ Hhl C). apply orb_true_r.
Qed.

Lemma is_outlier_edge_cases_witness :
  is_outlier nan 3.0 7.5 = false /\ is_outlier 5.0 7.5 3.0 = true.
Proof.
  split.
  - exact (proj1 (is_outlier_edge_cases nan 3.0 7.5) eq_refl).
  - exact (proj2 (is_outlier_edge_cases 5.0 7.5 3.0) eq_refl eq_refl).
Defined.

(** X6.  With thresholds no tighter than the label cut points
    (low <= 3.5 and 6.5 <= high, as with the defaults 3.0 and 7.5) an
    outlier is never NEUTRAL: a score at or below the low threshold is
    labelled NEGATIVE and a score at or above the high one POSITIVE. *)
Theorem outlier_label (score low high : float) :
  (low <=? 3.5)%float = true -> (6.5 <=? high)%float = true ->
  is_outlier score low high = true ->
  ((score <=? low)%float = true /\ label_of score = NEGATIVE) \/
  ((high <=? score)%float = true /\ label_of score = POSITIVE).
Proof.
  intros Hl Hh H. unfold is_outlier in H. apply orb_true_iff in H as [H|H].
  - left. split; [exact H|]. unfold label_of.
    now rewrite (leb_trans _ _ _ H Hl).
  - right. split; [exact H|]. unfold label_of.
    pose proof (leb_trans _ _ _ Hh H) as E. rewrite E.
    destruct (score <=? 3.5)%float eqn:E3; [|reflexivity].
    exfalso. exact (cut_points_disjoint score E3 E).
Qed.

Lemma outlier_label_witness :
  ((2.4 <=? 3.0)%float = true /\ label_of 2.4 = NEGATIVE) \/
  ((7.5 <=? 2.4)%float = true /\ label_of 2.4 = POSITIVE).
Proof. exact (outlier_label 2.4 3.0 7.5 eq_refl eq_refl eq_refl). Defined.

End AnalyzerProps.

(* ===================================================================== *)
(** * The shape of preprocessed text *)
(* ===================================================================== *)

Module PreprocessProps.
Import Py Analyzer PreprocessSpec.

Lemma tails_all_suffix Q (p u : str) : tails_all Q (p ++ u) -> u <> [] -> Q u.
Proof.
  induction p as [|c p IH]; cbn [app].
  - destruct u; [easy|]. now intros [H _] _.
  - intros [_ H]. now apply IH.
Qed.

Lemma strip_head t : headb isspace (strip t) = false.
Proof.
  unfold strip. destruct (rstrip_split (lstrip t)) as (tr & E & _).
  destruct (rstrip (lstrip t)) as [|c r] eqn:F; [reflexivity|].
  pose proof (headb_dropwhile isspace t) as H. fold (lstrip t) in H.
  rewrite E in H. exact H.
Qed.

Lemma strip_last t : headb isspace (rev (strip t)) = false.
Proof. unfold strip, rstrip. rewrite rev_involutive. apply headb_dropwhile. Qed.

(** ** Blank texts *)

Definition blank (t : str) : bool := negb (existsb nonspace t).

Lemma blank_app a b : blank (a ++ b) = blank a && blank b.
Proof. unfold blank. rewrite existsb_app. now destruct (existsb _ a). Qed.

Lemma blank_rev t : blank (rev t) = blank t.
Proof.
  induction t as [|c t IH]; [reflexivity|]. cbn [rev]. rewrite blank_app, IH.
  unfold blank. cbn [existsb]. destruct (nonspace c), (existsb nonspace t); reflexivity.
Qed.

Lemma blank_cons c t : blank (c :: t) = isspace c && blank t.
Proof. unfold blank, nonspace. cbn [existsb]. now destruct (isspace c). Qed.

Lemma blank_dropwhile t : blank (dropwhile isspace t) = blank t.
Proof.
  induction t as [|c t IH]; [reflexivity|]. cbn [dropwhile].
  destruct (isspace c) eqn:E; [|reflexivity]. now rewrite IH, blank_cons, E.
Qed.

Lemma blank_strip t : blank (strip t) = blank t.
Proof.
  unfold strip, lstrip, rstrip. now rewrite blank_rev, blank_dropwhile, blank_rev, blank_dropwhile.
Qed.

Lemma blank_dropwhile_nil t : blank t = true -> dropwhile isspace t = [].
Proof.
  induction t as [|c t IH]; [reflexivity|]. rewrite blank_cons. cbn [dropwhile].
  intros H. apply andb_true_iff in H as [-> H]. auto.
Qed.

Lemma strip_nil t : strip t = [] <-> blank t = true.
Proof.
  split.
  - intros H. now rewrite <- blank_strip, H.
  - intros H. unfold strip, lstrip. now rewrite (blank_dropwhile_nil t H).
Qed.

Section Blank.
Variable alnum : char -> bool.
Abbreviation W := (isword alnum).
Abbreviation sub_men := (re_sub (mention_re alnum) (lit "@user")).
Abbreviation sub_url := (re_sub url_re (lit "http")).
Abbreviation sub_sp := (re_sub space_re (lit " ")).

Lemma blank_skipn k : forall t, blank t = true -> blank (skipn k t) = true.
Proof.
  induction k as [|k IH]; intros [|c t]; auto. rewrite blank_cons. cbn [skipn].
  intros H. apply andb_true_iff in H as [_ H]. auto.
Qed.

Lemma blank_sub_men : forall t, blank (sub_men t) = blank t.
Proof.
  induction t as [|c t IH] using scan_ind; [reflexivity|].
  rewrite (sub_men_cons alnum).
  destruct ((c =? 64)%N && headb W t) eqn:E.
  - apply andb_true_iff in E as [E _]. apply N.eqb_eq in E. subst c. reflexivity.
  - rewrite !blank_cons. f_equal. apply (IH 0%nat).
Qed.

Lemma blank_sub_url : forall t, blank (sub_url t) = blank t.
Proof.
  induction t as [|c t IH] using scan_ind; [reflexivity|].
  rewrite sub_url_cons.
  destruct (url_start (c :: t)) eqn:E.
  - destruct (url_start_cases _ E) as (x & r & _ & [H|H]); lits;
      injection H as -> _; reflexivity.
  - rewrite !blank_cons. f_equal. apply (IH 0%nat).
Qed.

Lemma blank_sub_sp : forall t, blank (sub_sp t) = blank t.
Proof.
  induction t as [|c t IH] using scan_ind; [reflexivity|].
  rewrite sub_sp_cons. destruct (isspace c) eqn:E.
  - destruct (dropwhile_skipn isspace t) as [k Hk].
    change (lit " " ++ sub_sp (dropwhile isspace t))
      with (32%N :: sub_sp (dropwhile isspace t)).
    rewrite !blank_cons, E. change (isspace 32%N) with true. cbn [andb].
    rewrite Hk, IH, <- Hk. apply blank_dropwhile.
  - rewrite !blank_cons. f_equal. apply (IH 0%nat).
Qed.

Lemma blank_preprocess t : blank (preprocess_text alnum t) = blank t.
Proof.
  unfold preprocess_text.
  now rewrite blank_strip, blank_sub_sp, blank_sub_url, blank_sub_men.
Qed.

Lemma strip_preprocess t : strip (preprocess_text alnum t) = preprocess_text alnum t.
Proof. unfold preprocess_text. apply strip_idempotent. Qed.

Lemma preprocess_nil t : preprocess_text alnum t = [] <-> strip t = [].
Proof.
  rewrite <- strip_preprocess, !strip_nil. now rewrite blank_preprocess.
Qed.

Lemma preprocess_fixed t :
  preprocess_text alnum (preprocess_text alnum t) = preprocess_text alnum t.
Proof.
  destruct (preprocess_text_ok alnum t) as (Hm & Hu & Hs).
  unfold preprocess_text at 1.
  rewrite (sub_men_fixed alnum _ Hm), (sub_url_fixed _ Hu), (sub_sp_fixed _ Hs).
  apply strip_preprocess.
Qed.

End Blank.

(** X7.  White space in a preprocessed text: every white-space character is
    a plain space (U+0020), it is neither the first nor the last character,
    and the character after it is not white space. *)
Theorem preprocessed_whitespace (alnum : char -> bool) (s p r : str) (c : char) :
  preprocess_text alnum s = p ++ c :: r -> isspace c = true ->
  c = 32%N /\ p <> [] /\ r <> [] /\ headb isspace r = false.
Proof.
  intros E Hc.
  destruct (preprocess_text_ok alnum s) as (_ & _ & Hs). rewrite E in Hs.
  destruct (tails_all_suffix _ _ _ Hs ltac:(discriminate) c r eq_refl Hc) as [-> Hr].
  pose proof (strip_head (preprocess_text alnum s)) as Hh.
  pose proof (strip_last (preprocess_text alnum s)) as Hl.
  rewrite strip_preprocess, E in Hh, Hl.
  repeat split; trivial.
  - intros ->. cbn in Hh. congruence.
  - intros ->. rewrite rev_app_distr in Hl. cbn in Hl. congruence.
Qed.

Lemma preprocessed_whitespace_witness :
  32%N = 32%N /\ lit "hi" <> [] /\ lit "@user" <> [] /\ headb isspace (lit "@user") = false.
Proof.
  exact (preprocessed_whitespace (fun _ => false) (lit " hi  @bob ") (lit "hi") (lit "@user")
           32%N eq_refl eq_refl).
Defined.

(** X8.  No URL is left in a preprocessed text: nowhere in it does
    [http://] or [https://] occur followed by a character that is not white
    space. *)
Theorem preprocessed_no_url (alnum : char -> bool) (s p r : str) (x : char) :
  isspace x = false ->
  preprocess_text alnum s <> p ++ lit "http://" ++ x :: r /\
  preprocess_text alnum s <> p ++ lit "https://" ++ x :: r.
Proof.
  intros Hx. destruct (preprocess_text_ok alnum s) as (_ & Hu & _).
  assert (nonspace x = true) as Hn by (unfold nonspace; now rewrite Hx).
  split; intros E; rewrite E in Hu;
    apply tails_all_suffix in Hu; try (lits; discriminate); unfold url_ok in Hu.
  - now rewrite url_start_http in Hu.
  - now rewrite url_start_https in Hu.
Qed.

Lemma preprocessed_no_url_witness :
  preprocess_text (fun _ => false) (lit "see https://a.b/c now")
    <> lit "see " ++ lit "http://" ++ 97%N :: lit ".b/c now" /\
  preprocess_text (fun _ => false) (lit "see https://a.b/c now")
    <> lit "see " ++ lit "https://" ++ 97%N :: lit ".b/c now".
Proof.
  exact (preprocessed_no_url (fun _ => false) (lit "see https://a.b/c now") (lit "see ")
           (lit ".b/c now") 97%N eq_refl).
Defined.

(** X9.  Every mention left in a preprocessed text is the placeholder: an
    [@] followed by a word character is followed by exactly [user] and then
    by no further word character. *)
Theorem preprocessed_mentions (alnum : char -> bool) (s p r : str) :
  preprocess_text alnum s = p ++ 64%N :: r -> headb (isword alnum) r = true ->
  exists r' : str, r = lit "user" ++ r' /\ headb (isword alnum) r' = false.
Proof.
  intros E Hr.
  destruct (preprocess_text_ok alnum s) as (Hm & _ & _). rewrite E in Hm.
  pose proof (tails_all_suffix _ _ _ Hm ltac:(discriminate) r eq_refl Hr) as T.
  exists (dropwhile (isword alnum) r). split.
  - rewrite <- T. symmetry. apply takewhile_dropwhile.
  - apply headb_dropwhile.
Qed.

Lemma preprocessed_mentions_witness :
  exists r' : str, lit "user: hi" = lit "user" ++ r' /\
    headb (isword (fun _ => false)) r' = false.
Proof.
  exact (preprocessed_mentions (fun _ => false) (lit "cc @bob_42: hi") (lit "cc ")
           (lit "user: hi") eq_refl eq_refl).
Defined.

(** X10.  Preprocessing yields the empty text exactly for the texts that
    are empty or white space only: a mention or a URL is replaced by a
    placeholder, never deleted. *)
Theorem preprocessed_empty_iff_blank (alnum : char -> bool) (s : str) :
  preprocess_text alnum s = [] <-> strip s = [].
Proof.
  rewrite <- (strip_preprocess alnum s), !strip_nil.
  now rewrite blank_preprocess.
Qed.

(** X11.  Analysing a preprocessed text gives the result of analysing the
    original text, with the same number of model invocations: the fallback
    is taken for the same texts and the model sees the same input. *)
Theorem analyze_preprocessed (alnum : char -> bool) (classifier : Classifier)
    (variation : float) (text : str) (calls : nat) :
  analyze_sentiment alnum classifier variation (preprocess_text alnum text) calls
  = analyze_sentiment alnum classifier variation text calls.
Proof.
  unfold analyze_sentiment.
  destruct (preprocess_text alnum text) as [|c t] eqn:E.
  - apply preprocess_nil in E. destruct text; [reflexivity|]. now rewrite E.
  - rewrite <- E, strip_preprocess, preprocess_fixed.
    destruct text as [|c' t']; [discriminate|].
    destruct (strip (c' :: t')) eqn:F; [apply (preprocess_nil alnum) in F; congruence|].
    now rewrite E.
Qed.

End PreprocessProps.

(* ===================================================================== *)
(** * The bot: messages, stores and shutdown *)
(* ===================================================================== *)

Module BotRest.
Import Py Analyzer Bot.
Local Open Scope bot_scope.

(** The [finally] block of [run]: the records still buffered when the bot
    stops are saved. *)
Definition run_finally (cfg : Config) (ext : Externals) (now : Clock) : M unit :=
  buf <- gets session_messages ;;
  match buf with
  | [] => ret tt
  | _ => save_current_data cfg ext now
  end.

End BotRest.

Module BotProps.
Import Py Analyzer Bot BotSpec BotRest.
Local Open Scope bot_scope.

(** The updates [handle_message] returns on at once: no message, no text or
    an empty text, or a chat other than the monitored one. *)
Definition ignored (cfg : Config) (update_message : option Message) : Prop :=
  match update_message with
  | None => True
  | Some message =>
      text message = None \/ text message = Some [] \/
      (MONITOR_CHAT_ID cfg <> 0%Z /\ chat_id message <> MONITOR_CHAT_ID cfg)
  end.

Lemma accepted_or_ignored cfg message :
  accepted cfg message \/ ignored cfg (Some message).
Proof.
  unfold accepted, ignored.
  destruct (text message) as [[|c t]|]; auto.
  destruct (Z.eq_dec (MONITOR_CHAT_ID cfg) 0%Z); [left|].
  { split; [exists (c :: t); easy|auto]. }
  destruct (Z.eq_dec (chat_id message) (MONITOR_CHAT_ID cfg)); [left|auto].
  split; [exists (c :: t); easy|auto].
Qed.

Lemma accepted_not_ignored cfg message :
  accepted cfg message -> ignored cfg (Some message) -> False.
Proof.
  intros [(t & Ht & Hne) Hc] [H|[H|[H1 H2]]]; try congruence.
  destruct Hc; congruence.
Qed.

Lemma handle_message_ok cfg ext now variation update st :
  handle_message cfg ext now variation update st
  = (inr tt, exec (handle_message cfg ext now variation update) st).
Proof.
  unfold handle_message at 1. rewrite try_unit.
  unfold exec at 2, handle_message. rewrite try_unit. reflexivity.
Qed.

Lemma handle_message_ignored cfg ext now variation update st :
  ignored cfg update ->
  exec (handle_message cfg ext now variation update) st = st.
Proof.
  unfold ignored, exec, handle_message, try_except.
  destruct update as [message|]; [|reflexivity].
  destruct (text message) as [[|c t]|]; try reflexivity.
  intros [H|[H|[H1 H2]]]; try discriminate.
  apply Z.eqb_neq in H1, H2. rewrite H1, H2. reflexivity.
Qed.

Lemma analyze_calls alnum cl v t n :
  snd (analyze_sentiment alnum cl v t n) = n \/
  snd (analyze_sentiment alnum cl v t n) = S n.
Proof.
  unfold analyze_sentiment.
  destruct t; [now left|]. destruct (strip _); [now left|].
  destruct (cl _) as [[[? ?] ?]|]; now right.
Qed.

(** The score of the record of an event. *)
Definition score_of (ext : Externals) (ev : Event) : float :=
  let t := match text (ev_message ev) with Some t => t | None => [] end in
  fst (fst (analyze_sentiment (unicode_alnum ext) (classifier ext)
              (ev_variation ev) t 0)).

Definition outlier_filename (now : Clock) : str :=
  lit "outliers_" ++ strftime_Ym now ++ lit ".json".

(** The state after the append, before the outlier test. *)
Definition buffered (ext : Externals) (ev : Event) (st : State) : State :=
  let t := match text (ev_message ev) with Some t => t | None => [] end in
  {| session_messages := session_messages st ++ [record_of ext ev];
     session_outliers := session_outliers st;
     files := files st;
     writes := writes st;
     model_calls := snd (analyze_sentiment (unicode_alnum ext) (classifier ext)
                           (ev_variation ev) t (model_calls st)) |}.

Definition count_outlier (st : State) : State :=
  {| session_messages := session_messages st;
     session_outliers := S (session_outliers st);
     files := files st;
     writes := writes st;
     model_calls := model_calls st |}.

(** The state before the flush test. *)
Definition logged (cfg : Config) (ext : Externals) (ev : Event) (st : State) : State :=
  if is_outlier (score_of ext ev)
       (SENTIMENT_THRESHOLD_LOW cfg) (SENTIMENT_THRESHOLD_HIGH cfg)
  then exec (_save_to_json cfg ext (record_of ext ev) (outlier_filename (ev_now ev)))
            (count_outlier (buffered ext ev st))
  else buffered ext ev st.

Lemma handle_accepted_eq cfg ext ev st :
  accepted cfg (ev_message ev) ->
  handle cfg ext ev st =
    if (len (session_messages (logged cfg ext ev st)) mod 10 =? 0)%Z
    then exec (save_current_data cfg ext (ev_now ev)) (logged cfg ext ev st)
    else logged cfg ext ev st.
Proof.
  intros [(t & Ht & Hne) Hchat].
  unfold logged, buffered, score_of, record_of.
  unfold handle, exec at 1, handle_message, try_except. cbn [bind].
  rewrite Ht. destruct t as [|c t]; [congruence|].
  assert ((negb (MONITOR_CHAT_ID cfg =? 0)%Z
           && negb (chat_id (ev_message ev) =? MONITOR_CHAT_ID cfg)%Z) = false) as ->.
  { destruct Hchat as [->| ->]; [reflexivity|]. rewrite Z.eqb_refl. apply andb_false_r. }
  unfold bind at 1. unfold analyze at 1.
  rewrite <- (analyze_sentiment_result (unicode_alnum ext) (classifier ext)
                (ev_variation ev) (c :: t) (model_calls st)).
  destruct (analyze_sentiment _ _ _ _ (model_calls st)) as [[score label] calls].
  cbn [fst snd].
  set (r := message_data _ _ _ _).
  unfold bind, gets, set_session_messages, modify. cbn [fst snd session_messages].
  destruct (is_outlier _ _ _).
  - unfold incr_session_outliers, modify. cbn [fst snd].
    unfold count_outlier. cbn [session_messages session_outliers files writes model_calls].
    fold (outlier_filename (ev_now ev)).
    match goal with |- context [_save_to_json ?c ?e ?d ?f ?s] =>
      destruct (save_to_json_only_wrote c e d f s) as [Eq OW]; rewrite Eq end.
    destruct (_ mod 10 =? 0)%Z; [rewrite save_current_data_ok|]; reflexivity.
  - cbn -[save_current_data Z.modulo len].
    destruct (_ mod 10 =? 0)%Z; [rewrite save_current_data_ok|]; reflexivity.
Qed.

Lemma save_current_data_cases cfg ext now st :
  exec (save_current_data cfg ext now) st = st \/
  exists existing,
    session_messages st <> [] /\
    read_existing ext (files st) (data_file cfg (strftime_Ymd now)) = inr (VList existing) /\
    exec (save_current_data cfg ext now) st = flushed cfg ext now existing st.
Proof.
  destruct (session_messages st) as [|r buf] eqn:E.
  { left. now apply save_current_data_empty. }
  destruct (read_existing ext (files st) (data_file cfg (strftime_Ymd now)))
    as [e|v] eqn:R.
  { left. eapply save_current_data_raise; eauto. }
  destruct v.
  6: { right. exists l. split; [easy|]. split; [reflexivity|].
       apply save_current_data_flush; [rewrite E; easy|exact R]. }
  all: left; unfold exec, save_current_data, try_except, bind, gets, lift; cbn;
    rewrite E; cbn; rewrite R; reflexivity.
Qed.

Lemma logged_spec cfg ext ev st :
  session_messages (logged cfg ext ev st) = session_messages st ++ [record_of ext ev] /\
  (exists ws, writes (logged cfg ext ev st) = writes st ++ ws /\
     Forall (fun w => fst w = outlier_file cfg (ev_now ev)) ws /\ (length ws <= 1)%nat) /\
  (forall p, p <> outlier_file cfg (ev_now ev) ->
     files (logged cfg ext ev st) !! p = files st !! p).
Proof.
  unfold logged. destruct (is_outlier _ _ _).
  - unfold exec, _save_to_json, try_except, bind, gets. cbn [fst snd].
    fold (outlier_file cfg (ev_now ev)).
    set (existing := match _ !! _ with Some _ => _ | None => _ end).
    assert (forall X : Prop, X -> X) as K by auto.
    destruct existing; cbn; (split; [reflexivity|]); split;
      try (exists []; rewrite app_nil_r; repeat split; auto; fail); auto.
    + eexists; split; [reflexivity|]. split; [repeat constructor|cbn; lia].
    + intros p Hp. now rewrite lookup_insert_ne.
  - cbn. split; [reflexivity|]. split; [|auto].
    exists []. rewrite app_nil_r. repeat split; auto.
Qed.

Lemma handle_cases cfg ext ev st :
  accepted cfg (ev_message ev) ->
  let st1 := logged cfg ext ev st in
  handle cfg ext ev st = st1 \/
  exists existing,
    read_existing ext (files st1) (data_file cfg (strftime_Ymd (ev_now ev)))
      = inr (VList existing) /\
    handle cfg ext ev st = flushed cfg ext (ev_now ev) existing st1.
Proof.
  intros Hacc st1. rewrite (handle_accepted_eq cfg ext ev st Hacc). fold st1.
  destruct (_ mod 10 =? 0)%Z; [|now left].
  destruct (save_current_data_cases cfg ext (ev_now ev) st1) as [E|(ex & _ & R & E)].
  - left. exact E.
  - right. now exists ex.
Qed.

Lemma read_existing_logged cfg ext ev st d :
  read_existing ext (files (logged cfg ext ev st)) (data_file cfg d)
  = read_existing ext (files st) (data_file cfg d).
Proof.
  destruct (logged_spec cfg ext ev st) as (_ & _ & Hf).
  unfold read_existing. rewrite Hf; [reflexivity|].
  intros E. symmetry in E. now apply outlier_file_not_data_file in E.
Qed.

Lemma app_one_neq {A} (l : list A) x : l ++ [x] <> l.
Proof. intros E. apply (f_equal (@length A)) in E. rewrite length_app in E. cbn in E. lia. Qed.

Lemma app_neq {A} (l ws : list A) x : l ++ ws ++ [x] <> l.
Proof.
  intros E. apply (f_equal (@length A)) in E. rewrite !length_app in E. cbn in E. lia.
Qed.

(** X12.  [handle_message] never raises, and it leaves the bot as it was
    exactly for the updates it ignores (no message, no or empty text, a
    chat other than the monitored one): every other message leaves a trace
    in the buffer or in the write log. *)
Theorem handle_message_trace (cfg : Config) (ext : Externals) (now : Clock)
    (variation : float) (update_message : option Message) (st : State) :
  fst (handle_message cfg ext now variation update_message st) = inr tt /\
  (snd (handle_message cfg ext now variation update_message st) = st
   <-> ignored cfg update_message).
Proof.
  rewrite handle_message_ok. cbn [fst snd]. split; [reflexivity|].
  split; [|apply handle_message_ignored].
  destruct update_message as [message|]; [|easy].
  destruct (accepted_or_ignored cfg message) as [Hacc|Hign]; [|easy].
  intros E. exfalso.
  set (ev := {| ev_now := now; ev_variation := variation; ev_message := message |}).
  change (handle cfg ext ev st = st) in E.
  destruct (logged_spec cfg ext ev st) as (Hm & (ws & Hw & _) & _).
  destruct (handle_cases cfg ext ev st Hacc) as [H|(ex & _ & H)]; rewrite H in E.
  - rewrite E in Hm. symmetry in Hm. now apply app_one_neq in Hm.
  - apply (f_equal writes) in E. unfold flushed in E. cbn [writes] in E.
    rewrite Hw, <- app_assoc in E. now apply app_neq in E.
Qed.



Lemma flushed_frame cfg ext now ex st :
  let st' := flushed cfg ext now ex st in
  session_outliers st' = session_outliers st /\ model_calls st' = model_calls st /\
  (forall p, p <> data_file cfg (strftime_Ymd now) -> files st' !! p = files st !! p).
Proof. cbn. repeat split. intros p Hp. now rewrite lookup_insert_ne. Qed.

Lemma logged_counts cfg ext ev st :
  let st1 := logged cfg ext ev st in
  let t := match text (ev_message ev) with Some t => t | None => [] end in
  model_calls st1 = snd (analyze_sentiment (unicode_alnum ext) (classifier ext)
                           (ev_variation ev) t (model_calls st)) /\
  session_outliers st1 =
    if is_outlier (score_of ext ev)
         (SENTIMENT_THRESHOLD_LOW cfg) (SENTIMENT_THRESHOLD_HIGH cfg)
    then S (session_outliers st) else session_outliers st.
Proof.
  cbn zeta. unfold logged. destruct (is_outlier _ _ _); [|now split].
  match goal with |- context [exec (_save_to_json ?c ?e ?d ?f) ?s] =>
    destruct (save_to_json_only_wrote c e d f s) as [_ [_ Ho Hc _ _]] end.
  rewrite Ho, Hc. now split.
Qed.

(** X14.  What [handle_message] can touch.  Whatever the update, it writes
    at most two files, the month's outlier store and the per-day store of
    the current date, and every other file is as before; it invokes the
    model at most once and counts at most one outlier. *)
Theorem handle_message_frame (cfg : Config) (ext : Externals) (now : Clock)
    (variation : float) (update_message : option Message) (st : State) :
  let st' := exec (handle_message cfg ext now variation update_message) st in
  let stores := [outlier_file cfg now; data_file cfg (strftime_Ymd now)] in
  (forall p, ~ In p stores -> files st' !! p = files st !! p) /\
  (exists ws, writes st' = writes st ++ ws /\ (length ws <= 2)%nat /\
              Forall (fun w => In (fst w) stores) ws) /\
  (model_calls st' = model_calls st \/ model_calls st' = S (model_calls st)) /\
  (session_outliers st' = session_outliers st \/
   session_outliers st' = S (session_outliers st)).
Proof.
  intros st' stores.
  assert (forall s : State,
    (forall p, ~ In p stores -> files s !! p = files s !! p) /\
    (exists ws, writes s = writes s ++ ws /\ (length ws <= 2)%nat /\
                Forall (fun w => In (fst w) stores) ws) /\
    (model_calls s = model_calls s \/ model_calls s = S (model_calls s)) /\
    (session_outliers s = session_outliers s \/
     session_outliers s = S (session_outliers s))) as Same.
  { intros s. split; [auto|]. split; [|auto].
    exists []. rewrite app_nil_r. split; [reflexivity|]. split; [cbn; lia|constructor]. }
  destruct update_message as [message|];
    [|subst st'; rewrite handle_message_ignored by exact I; apply Same].
  destruct (accepted_or_ignored cfg message) as [Hacc|Hign];
    [|subst st'; rewrite handle_message_ignored by exact Hign; apply Same].
  set (ev := {| ev_now := now; ev_variation := variation; ev_message := message |}).
  change (exec _ st) with (handle cfg ext ev st) in st'.
  change now with (ev_now ev) in stores.
  destruct (logged_spec cfg ext ev st) as (Hm & (ws & Hw & Hws & Hlen) & Hf).
  destruct (logged_counts cfg ext ev st) as [Hc Ho].
  assert (Forall (fun w : str * str => In (fst w) stores) ws) as Hws'.
  { eapply Forall_impl; [exact Hws|]. intros w ->. now left. }
  assert (model_calls (logged cfg ext ev st) = model_calls st \/
          model_calls (logged cfg ext ev st) = S (model_calls st)) as Hc'.
  { rewrite Hc. apply analyze_calls. }
  assert (session_outliers (logged cfg ext ev st) = session_outliers st \/
          session_outliers (logged cfg ext ev st) = S (session_outliers st)) as Ho'.
  { rewrite Ho. destruct (is_outlier _ _ _); auto. }
  subst st'.
  destruct (handle_cases cfg ext ev st Hacc) as [H|(ex & _ & H)]; rewrite H.
  - split; [|split; [|split]]; trivial.
    + intros p Hp. apply Hf. intros ->. apply Hp. now left.
    + exists ws. repeat split; trivial. lia.
  - destruct (flushed_frame cfg ext (ev_now ev) ex (logged cfg ext ev st))
      as (Fo & Fc & Ff).
    rewrite Fo, Fc. split; [|split; [|split]]; trivial.
    + intros p Hp. rewrite Ff; [apply Hf|]; intros ->; apply Hp; cbn; auto.
    + unfold flushed. cbn [writes]. rewrite Hw, <- app_assoc.
      eexists; split; [reflexivity|]. split.
      * rewrite length_app. cbn. lia.
      * apply Forall_app. split; [exact Hws'|]. constructor; [|constructor].
        right. now left.
Qed.

(** ** [_save_to_json] *)

(** What [_save_to_json] takes the file to hold. *)
Definition load_store (ext : Externals) (fs : gmap str str) (path : str) : value :=
  match fs !! path with
  | Some content =>
      match json_loads ext content with Some v => v | None => VList [] end
  | None => VList []
  end.

Definition written (path content : str) (st : State) : State :=
  {| session_messages := session_messages st;
     session_outliers := session_outliers st;
     files := <[path := content]> (files st);
     writes := writes st ++ [(path, content)];
     model_calls := model_calls st |}.

Lemma save_to_json_list cfg ext data filename st l :
  let path := path_join (LOG_DIRECTORY cfg) filename in
  load_store ext (files st) path = VList l ->
  exec (_save_to_json cfg ext data filename) st
  = written path (json_dumps ext (VList (l ++ [data]))) st.
Proof.
  intros path H. unfold exec, _save_to_json, try_except, bind, gets. cbn [fst snd].
  fold path. unfold load_store in H. rewrite H. reflexivity.
Qed.

Lemma save_to_json_not_list cfg ext data filename st :
  let path := path_join (LOG_DIRECTORY cfg) filename in
  (forall l, load_store ext (files st) path <> VList l) ->
  exec (_save_to_json cfg ext data filename) st = st.
Proof.
  intros path H. unfold exec, _save_to_json, try_except, bind, gets. cbn [fst snd].
  fold path. unfold load_store in H.
  destruct (match files st !! path with Some _ => _ | None => _ end);
    try reflexivity.
  now destruct (H l).
Qed.

(** X15.  Outliers are logged at once.  When the score of an accepted
    message is an outlier for the configured thresholds, the outlier count
    grows by one and the record is appended to the month's outlier store
    in the same call, flush or no flush: a missing store is created with
    the record alone, a store holding a list gets the record at its end.
    For any other score the count and the outlier store stay as they
    were. *)
Theorem outlier_side_channel (cfg : Config) (ext : Externals) (ev : Event)
    (st : State) :
  accepted cfg (ev_message ev) ->
  let st' := handle cfg ext ev st in
  let store := outlier_file cfg (ev_now ev) in
  if is_outlier (score_of ext ev)
       (SENTIMENT_THRESHOLD_LOW cfg) (SENTIMENT_THRESHOLD_HIGH cfg)
  then
    session_outliers st' = S (session_outliers st) /\
    (files st !! store = None ->
       files st' !! store = Some (json_dumps ext (VList [record_of ext ev]))) /\
    (forall content l,
       files st !! store = Some content -> json_loads ext content = Some (VList l) ->
       files st' !! store = Some (json_dumps ext (VList (l ++ [record_of ext ev]))))
  else
    session_outliers st' = session_outliers st /\
    files st' !! store = files st !! store.
Proof.
  intros Hacc st' store.
  assert (session_outliers st' = session_outliers (logged cfg ext ev st) /\
          files st' !! store = files (logged cfg ext ev st) !! store) as [Eo Ef].
  { subst st'. destruct (handle_cases cfg ext ev st Hacc) as [H|(ex & _ & H)]; rewrite H.
    - now split.
    - destruct (flushed_frame cfg ext (ev_now ev) ex (logged cfg ext ev st))
        as (Fo & _ & Ff).
      split; [exact Fo|]. apply Ff, outlier_file_not_data_file. }
  rewrite Eo, Ef. clear Eo Ef.
  destruct (logged_counts cfg ext ev st) as [_ Ho]. rewrite Ho.
  unfold logged.
  destruct (is_outlier _ _ _).
  - split; [reflexivity|]. split.
    + intros Hnone.
      rewrite (save_to_json_list cfg ext _ _ _ []).
      * cbn [written files]. apply lookup_insert_eq.
      * unfold load_store. cbn [count_outlier buffered files].
        change (path_join (LOG_DIRECTORY cfg) (outlier_filename (ev_now ev))) with store.
        now rewrite Hnone.
    + intros content l Hsome Hloads.
      rewrite (save_to_json_list cfg ext _ _ _ l).
      * cbn [written files]. apply lookup_insert_eq.
      * unfold load_store. cbn [count_outlier buffered files].
        change (path_join (LOG_DIRECTORY cfg) (outlier_filename (ev_now ev))) with store.
        now rewrite Hsome, Hloads.
  - now split.
Qed.

Lemma outlier_side_channel_witness :
  let st' := handle cfg0 RefCodec.ext (event0 1) (initial ∅) in
  session_outliers st' = 1%nat /\
  files st' !! outlier_file cfg0 clock0
  = Some (RefCodec.dumps (VList [record_of RefCodec.ext (event0 1)])).
Proof.
  pose proof (outlier_side_channel cfg0 RefCodec.ext (event0 1) (initial ∅)
                (accepted_message0 1)) as H.
  cbv zeta in H.
  change (is_outlier (score_of RefCodec.ext (event0 1))
            (SENTIMENT_THRESHOLD_LOW cfg0) (SENTIMENT_THRESHOLD_HIGH cfg0))
    with true in H.
  cbv iota in H. destruct H as (Ho & Hnew & _).
  split; [exact Ho|]. apply Hnew. reflexivity.
Defined.

(** Entries saved one after the other. *)
Definition save_all (cfg : Config) (ext : Externals) (filename : str)
    (entries : list value) (st : State) : State :=
  fold_left (fun st data => exec (_save_to_json cfg ext data filename) st) entries st.

Lemma save_all_spec cfg ext filename : forall entries l0 st,
  let path := path_join (LOG_DIRECTORY cfg) filename in
  load_store ext (files st) path = VList l0 ->
  (forall n, (0 < n < length entries)%nat ->
     json_loads ext (json_dumps ext (VList (l0 ++ firstn n entries)))
     = Some (VList (l0 ++ firstn n entries))) ->
  entries <> [] ->
  files (save_all cfg ext filename entries st) !! path
  = Some (json_dumps ext (VList (l0 ++ entries))).
Proof.
  induction entries as [|d ds IH]; intros l0 st path Hload Hrt Hne; [easy|].
  cbn [save_all fold_left]. rewrite (save_to_json_list cfg ext d filename st l0 Hload).
  fold path. destruct ds as [|d' ds'].
  - cbn. apply lookup_insert_eq.
  - fold (save_all cfg ext filename (d' :: ds')
            (written path (json_dumps ext (VList (l0 ++ [d]))) st)).
    replace (l0 ++ d :: d' :: ds') with ((l0 ++ [d]) ++ d' :: ds')
      by now rewrite <- app_assoc.
    apply IH; [| |easy].
    + unfold load_store. cbn [written files]. fold path. rewrite lookup_insert_eq.
      specialize (Hrt 1%nat). cbn [firstn length] in Hrt. rewrite Hrt; [reflexivity|lia].
    + intros n Hn. specialize (Hrt (S n)). cbn [firstn length] in Hrt.
      rewrite <- app_assoc. cbn [app]. apply Hrt. cbn [length] in Hn. lia.
Qed.

(** X16.  [_save_to_json] accumulates: entries saved one after the other to
    a file that did not exist end up in the file as one array, all of them
    and in the order of the calls, provided the JSON library reads back the
    arrays it printed in between. *)
Theorem save_to_json_accumulates (cfg : Config) (ext : Externals) (filename : str)
    (entries : list value) (st : State) :
  let path := path_join (LOG_DIRECTORY cfg) filename in
  files st !! path = None ->
  (forall n, (0 < n < length entries)%nat ->
     json_loads ext (json_dumps ext (VList (firstn n entries)))
     = Some (VList (firstn n entries))) ->
  entries <> [] ->
  files (save_all cfg ext filename entries st) !! path
  = Some (json_dumps ext (VList entries)).
Proof.
  intros path Hnone Hrt Hne.
  apply (save_all_spec cfg ext filename entries [] st); trivial.
  unfold load_store. fold path. now rewrite Hnone.
Qed.

Lemma save_to_json_accumulates_witness :
  files (save_all cfg0 RefCodec.ext (lit "daily_report_2024-05-01.json")
           [VInt 1; VStr (lit "two"); VFloat 3.5] (initial ∅))
    !! lit "logs/daily_report_2024-05-01.json"
  = Some (RefCodec.dumps (VList [VInt 1; VStr (lit "two"); VFloat 3.5])).
Proof.
  refine (save_to_json_accumulates cfg0 RefCodec.ext (lit "daily_report_2024-05-01.json")
            [VInt 1; VStr (lit "two"); VFloat 3.5] (initial ∅) eq_refl _ _).
  - intros n Hn. cbn [length] in Hn.
    destruct n as [|[|[|n]]]; try lia; vm_compute; reflexivity.
  - discriminate.
Defined.

(** X17.  A store that holds valid JSON which is not an array blocks the
    writers: [save_current_data] fails on [existing_data + ...] and keeps
    the buffer, [_save_to_json] fails on [existing_data.append] and drops
    the entry; both swallow the exception and the file stays as it was. *)
Theorem store_not_array (cfg : Config) (ext : Externals) (now : Clock)
    (data : value) (filename : str) (st : State) (content : str) (v : value) :
  json_loads ext content = Some v ->
  (forall l, v <> VList l) ->
  (files st !! data_file cfg (strftime_Ymd now) = Some content ->
   strip content <> [] ->
   exec (save_current_data cfg ext now) st = st) /\
  (files st !! path_join (LOG_DIRECTORY cfg) filename = Some content ->
   exec (_save_to_json cfg ext data filename) st = st).
Proof.
  intros Hloads Hv. split.
  - intros Hf Hblank.
    unfold exec, save_current_data, try_except, bind, gets, lift. cbn [fst snd].
    destruct (session_messages st) as [|r buf] eqn:E; [reflexivity|].
    unfold read_existing. rewrite Hf.
    destruct (strip content); [congruence|]. rewrite Hloads.
    destruct v as [| | | | |l|]; try reflexivity. now destruct (Hv l).
  - intros Hf. apply save_to_json_not_list. intros l.
    unfold load_store. rewrite Hf, Hloads. apply Hv.
Qed.

Definition state_object : State :=
  {| session_messages := [record_of RefCodec.ext (event0 1)];
     session_outliers := 0;
     files := {[ data_file cfg0 (lit "2024-05-01") := lit "{}" ]};
     writes := [];
     model_calls := 1 |}.

Lemma store_not_array_witness :
  exec (save_current_data cfg0 RefCodec.ext clock0) state_object = state_object /\
  exec (_save_to_json cfg0 RefCodec.ext (VInt 1) (lit "sentiment_data_2024-05-01.json"))
    state_object = state_object.
Proof.
  pose proof (store_not_array cfg0 RefCodec.ext clock0 (VInt 1)
                (lit "sentiment_data_2024-05-01.json") state_object (lit "{}") (VDict [])
                eq_refl ltac:(discriminate)) as [H1 H2].
  split.
  - apply H1; [reflexivity|]. intros H. vm_compute in H. discriminate H.
  - apply H2. reflexivity.
Defined.

(** ** Whole sessions *)

(** The events of a day: accepted messages handled while the clock shows
    the date [today]. *)
Definition of_day (cfg : Config) (today : str) (ev : Event) : Prop :=
  accepted cfg (ev_message ev) /\ strftime_Ymd (ev_now ev) = today.

Section Session.
Variables (cfg : Config) (ext : Externals) (today : str).
Abbreviation day := (data_file cfg today).

(** What the store holds and what is buffered make up [all]. *)
Definition accounted (all : list value) (st : State) : Prop :=
  exists saved,
    read_existing ext (files st) day = inr (VList saved) /\
    saved ++ session_messages st = all.

Lemma flushed_accounted now saved st :
  strftime_Ymd now = today ->
  round_trips ext (VList (saved ++ session_messages st)) ->
  accounted (saved ++ session_messages st) (flushed cfg ext now saved st).
Proof.
  intros Hd [Hblank Hloads]. exists (saved ++ session_messages st).
  split; [|apply app_nil_r].
  unfold flushed, read_existing. cbn [files]. rewrite Hd, lookup_insert_eq.
  destruct (strip _); [congruence|]. now rewrite Hloads.
Qed.

Lemma handle_accounted all ev st :
  of_day cfg today ev ->
  accounted all st ->
  round_trips ext (VList (all ++ [record_of ext ev])) ->
  accounted (all ++ [record_of ext ev]) (handle cfg ext ev st).
Proof.
  intros [Hacc Hd] (saved & R & <-) Hrt.
  destruct (logged_spec cfg ext ev st) as (Hm & _ & _).
  assert (saved ++ session_messages (logged cfg ext ev st)
          = (saved ++ session_messages st) ++ [record_of ext ev]) as Eall.
  { now rewrite Hm, app_assoc. }
  destruct (handle_cases cfg ext ev st Hacc) as [H|(ex & R' & H)]; rewrite H.
  - exists saved. split; [|exact Eall]. now rewrite read_existing_logged.
  - rewrite read_existing_logged, Hd, R in R'. injection R' as <-.
    rewrite <- Eall. apply flushed_accounted; [exact Hd|]. now rewrite Eall.
Qed.

Lemma run_accounted : forall evs all st,
  Forall (of_day cfg today) evs ->
  accounted all st ->
  (forall n, (0 < n <= length evs)%nat ->
     round_trips ext (VList (all ++ map (record_of ext) (firstn n evs)))) ->
  accounted (all ++ map (record_of ext) evs) (run cfg ext evs st).
Proof.
  induction evs as [|ev evs IH]; intros all st Hday Hacc Hrt.
  - cbn. now rewrite app_nil_r.
  - inversion Hday as [|? ? Hev Hrest]; subst. cbn [run fold_left map].
    fold (run cfg ext evs (handle cfg ext ev st)).
    replace (all ++ record_of ext ev :: map (record_of ext) evs)
      with ((all ++ [record_of ext ev]) ++ map (record_of ext) evs)
      by now rewrite <- app_assoc.
    apply IH; [exact Hrest| |].
    + apply handle_accounted; trivial.
      apply (Hrt 1%nat). cbn [length]. lia.
    + intros n Hn. rewrite <- app_assoc. apply (Hrt (S n)). cbn [length]. lia.
Qed.

Lemma run_finally_exec now st :
  exec (run_finally cfg ext now) st = exec (save_current_data cfg ext now) st.
Proof.
  unfold run_finally, exec at 1, bind, gets. cbn [fst snd].
  destruct (session_messages st) eqn:E.
  - cbn. symmetry. now apply save_current_data_empty.
  - reflexivity.
Qed.

Lemma run_finally_accounted now all st :
  strftime_Ymd now = today ->
  accounted all st ->
  (session_messages st <> [] -> round_trips ext (VList all)) ->
  session_messages (exec (run_finally cfg ext now) st) = [] /\
  read_existing ext (files (exec (run_finally cfg ext now) st)) day = inr (VList all).
Proof.
  intros Hd (saved & R & <-) Hrt. rewrite run_finally_exec.
  destruct (session_messages st) as [|r buf] eqn:E.
  - rewrite save_current_data_empty by exact E. rewrite app_nil_r. now split.
  - rewrite (save_current_data_flush cfg ext now saved);
      [|rewrite E; easy|now rewrite Hd].
    destruct (flushed_accounted now saved st Hd) as (saved' & R' & E').
    { rewrite E. now apply Hrt. }
    cbn [flushed session_messages] in E'. rewrite app_nil_r in E'. subst saved'.
    split; [reflexivity|]. now rewrite <- E.
Qed.

(** A per-day store that cannot be read stays as it is. *)
Definition unreadable (content : str) : Prop :=
  strip content <> [] /\ json_loads ext content = None.

Lemma handle_unreadable content ev st :
  of_day cfg today ev ->
  unreadable content ->
  files st !! day = Some content ->
  handle cfg ext ev st = logged cfg ext ev st.
Proof.
  intros [Hacc Hd] [Hblank Hloads] Hf.
  destruct (handle_cases cfg ext ev st Hacc) as [H|(ex & R & _)]; [exact H|].
  rewrite read_existing_logged, Hd in R. unfold read_existing in R. rewrite Hf in R.
  destruct (strip content); [congruence|]. now rewrite Hloads in R.
Qed.

Lemma run_unreadable content : forall evs st,
  Forall (of_day cfg today) evs ->
  unreadable content ->
  files st !! day = Some content ->
  let st' := run cfg ext evs st in
  session_messages st' = session_messages st ++ map (record_of ext) evs /\
  files st' !! day = Some content /\
  exists ws, writes st' = writes st ++ ws /\ Forall (not_day_store cfg) ws.
Proof.
  induction evs as [|ev evs IH]; intros st Hday Hbad Hf.
  - cbn. rewrite app_nil_r. repeat split; trivial.
    exists []. now rewrite app_nil_r.
  - inversion Hday as [|? ? Hev Hrest]; subst. cbn [run fold_left map].
    fold (run cfg ext evs (handle cfg ext ev st)).
    rewrite (handle_unreadable content ev st Hev Hbad Hf).
    destruct (logged_spec cfg ext ev st) as (Hm & (ws1 & Hw & Hws & _) & Hff).
    destruct (IH (logged cfg ext ev st) Hrest Hbad) as (IHm & IHf & ws & IHw & IHws).
    { rewrite Hff; [exact Hf|]. intros E. symmetry in E.
      now apply outlier_file_not_data_file in E. }
    rewrite IHm, Hm, <- app_assoc. split; [reflexivity|]. split; [exact IHf|].
    exists (ws1 ++ ws). rewrite IHw, Hw, <- app_assoc. split; [reflexivity|].
    apply Forall_app. split; [|exact IHws].
    eapply Forall_impl; [exact Hws|]. intros w Ew d. rewrite Ew.
    apply outlier_file_not_data_file.
Qed.

End Session.

(** X18.  No record is lost or doubled over a session.  When the per-day
    file is readable at the start, all messages are handled on the same
    date, and the JSON library reads back the arrays the bot prints, then
    after any number of accepted messages followed by the shutdown flush of
    [run] the buffer is empty and the per-day file holds what it held at
    the start, then what was buffered at the start, then the record of
    every message, each once and in the order of arrival. *)
Theorem session_saves_every_record (cfg : Config) (ext : Externals) (today : str)
    (evs : list Event) (now : Clock) (st : State) (existing : list value) :
  Forall (of_day cfg today) evs ->
  strftime_Ymd now = today ->
  read_existing ext (files st) (data_file cfg today) = inr (VList existing) ->
  Forall (fun n => round_trips ext
                     (VList (existing ++ session_messages st
                               ++ map (record_of ext) (firstn n evs))))
         (seq 0 (S (length evs))) ->
  let st' := exec (run_finally cfg ext now) (run cfg ext evs st) in
  session_messages st' = [] /\
  read_existing ext (files st') (data_file cfg today)
  = inr (VList (existing ++ session_messages st ++ map (record_of ext) evs)).
Proof.
  intros Hday Hd Hread Hrt st'. subst st'.
  rewrite List.Forall_forall in Hrt.
  assert (forall n, (n <= length evs)%nat ->
            round_trips ext (VList ((existing ++ session_messages st)
                                      ++ map (record_of ext) (firstn n evs)))) as Hrt'.
  { intros n Hn. rewrite <- app_assoc. apply Hrt, in_seq. lia. }
  rewrite app_assoc.
  apply run_finally_accounted; [exact Hd| |].
  - apply run_accounted; [exact Hday|now exists existing|].
    intros n Hn. apply Hrt'. lia.
  - intros _. specialize (Hrt' (length evs) (Nat.le_refl _)).
    now rewrite firstn_all in Hrt'.
Qed.

Definition events0 : list Event := map event0 [3; 4]%Z.

Lemma of_day_event0 n : of_day cfg0 (lit "2024-05-01") (event0 n).
Proof. split; [apply accepted_message0|reflexivity]. Qed.

Lemma session_saves_every_record_witness :
  let st' := exec (run_finally cfg0 RefCodec.ext clock0)
               (run cfg0 RefCodec.ext events0 state0) in
  session_messages st' = [] /\
  read_existing RefCodec.ext (files st') (data_file cfg0 (lit "2024-05-01"))
  = inr (VList ([record_of RefCodec.ext (event0 1)] ++ session_messages state0
                  ++ map (record_of RefCodec.ext) events0)).
Proof.
  refine (session_saves_every_record cfg0 RefCodec.ext (lit "2024-05-01") events0
            clock0 state0 [record_of RefCodec.ext (event0 1)] _ eq_refl _ _).
  - unfold events0. cbn [map]. repeat (constructor; [apply of_day_event0|]).
    constructor.
  - vm_compute. reflexivity.
  - unfold events0. cbn [map length seq].
    repeat (constructor;
            [split; [intros H; vm_compute in H; discriminate H|vm_compute; reflexivity]|]).
    constructor.
Defined.

(** X19.  A per-day file that is not blank and not JSON is never repaired:
    over any number of accepted messages of that date and the shutdown
    flush, no per-day store is written, the file keeps its content, and
    the buffer only grows, one record per message, so the records are
    still in memory, unsaved, when the bot stops. *)
Theorem unreadable_store_keeps_buffer (cfg : Config) (ext : Externals) (today : str)
    (evs : list Event) (now : Clock) (st : State) (content : str) :
  Forall (of_day cfg today) evs ->
  strftime_Ymd now = today ->
  files st !! data_file cfg today = Some content ->
  strip content <> [] ->
  json_loads ext content = None ->
  let st' := exec (run_finally cfg ext now) (run cfg ext evs st) in
  session_messages st' = session_messages st ++ map (record_of ext) evs /\
  files st' !! data_file cfg today = Some content /\
  exists ws, writes st' = writes st ++ ws /\ Forall (not_day_store cfg) ws.
Proof.
  intros Hday Hd Hf Hblank Hloads st'. subst st'.
  destruct (run_unreadable cfg ext today content evs st Hday (conj Hblank Hloads) Hf)
    as (Hm & Hf' & Hw).
  rewrite run_finally_exec, (save_current_data_raise cfg ext now JSONDecodeError).
  - now repeat split.
  - unfold read_existing. rewrite Hd, Hf'.
    destruct (strip content); [congruence|]. now rewrite Hloads.
Qed.

Definition events1 : list Event :=
  map event0 [11; 12; 13; 14; 15; 16; 17; 18; 19; 20; 21]%Z.

Lemma unreadable_store_keeps_buffer_witness :
  let st' := exec (run_finally cfg0 RefCodec.ext clock0)
               (run cfg0 RefCodec.ext events1 state_corrupt) in
  session_messages st'
    = session_messages state_corrupt ++ map (record_of RefCodec.ext) events1 /\
  files st' !! data_file cfg0 (lit "2024-05-01") = Some (lit "{") /\
  exists ws, writes st' = writes state_corrupt ++ ws /\ Forall (not_day_store cfg0) ws.
Proof.
  refine (unreadable_store_keeps_buffer cfg0 RefCodec.ext (lit "2024-05-01") events1
            clock0 state_corrupt (lit "{") _ eq_refl eq_refl _ eq_refl).
  - unfold events1. cbn [map]. repeat (constructor; [apply of_day_event0|]).
    constructor.
  - intros H. vm_compute in H. discriminate H.
Defined.

(** X20.  Flushing twice is flushing once: after [save_current_data] a
    second call changes nothing, whether the first one wrote the buffer
    out (the buffer is then empty) or failed (it fails again, as it found
    the same file). *)
Theorem save_current_data_idempotent (cfg : Config) (ext : Externals) (now : Clock)
    (st : State) :
  exec (save_current_data cfg ext now) (exec (save_current_data cfg ext now) st)
  = exec (save_current_data cfg ext now) st.
Proof.
  destruct (save_current_data_cases cfg ext now st) as [E|(ex & _ & _ & E)]; rewrite E.
  - exact E.
  - now apply save_current_data_empty.
Qed.

Lemma handle_records cfg ext ev st :
  Forall is_record (session_messages st) ->
  Forall is_record (session_messages (handle cfg ext ev st)).
Proof.
  intros Hrec.
  destruct (accepted_or_ignored cfg (ev_message ev)) as [Hacc|Hign].
  - destruct (logged_spec cfg ext ev st) as (Hm & _ & _).
    destruct (handle_cases cfg ext ev st Hacc) as [H|(ex & _ & H)]; rewrite H.
    + rewrite Hm. apply Forall_app. split; [exact Hrec|].
      constructor; [|constructor]. unfold record_of, is_record. eauto.
    + constructor.
  - unfold handle. now rewrite handle_message_ignored.
Qed.

Lemma run_records cfg ext evs : forall st,
  Forall is_record (session_messages st) ->
  Forall is_record (session_messages (run cfg ext evs st)).
Proof.
  induction evs as [|ev evs IH]; intros st Hrec; [exact Hrec|].
  cbn [run fold_left]. apply IH, handle_records, Hrec.
Qed.

Lemma generate_daily_report_ok cfg ext now st :
  generate_daily_report cfg ext now st
  = (inr tt, exec (generate_daily_report cfg ext now) st).
Proof.
  unfold generate_daily_report at 1. cbv zeta. rewrite try_unit.
  unfold exec at 2, generate_daily_report. cbv zeta. rewrite try_unit. reflexivity.
Qed.

(** X21.  No daily report is ever written.  After any messages whatever,
    accepted or not, from a fresh start, [generate_daily_report] changes
    nothing: the buffer holds only records built by [handle_message], none
    of which has the key [is_outlier], so the report body finds no message
    of the day or raises [KeyError], which is swallowed. *)
Theorem daily_report_never_written (cfg : Config) (ext : Externals)
    (fs : gmap str str) (evs : list Event) (now : Clock) :
  let st := run cfg ext evs (initial fs) in
  generate_daily_report cfg ext now st = (inr tt, st).
Proof.
  intros st.
  assert (Forall is_record (session_messages st)) as Hrec.
  { apply run_records. constructor. }
  rewrite generate_daily_report_ok.
  now rewrite (generate_daily_report_writes_nothing cfg ext now st Hrec).
Qed.

End BotProps.
